(** * Study Buddy: the application state machine, quiz engine, history store
      and source post-processing, embedded from the [App] component,
      [services/geminiService.ts] and [types.ts]. *)

From Stdlib Require Import List String Ascii Bool Arith Lia.
Import ListNotations.
Open Scope string_scope.
Open Scope list_scope.

Set Implicit Arguments.

(** ** The parts of ECMAScript the program relies on *)

Module JS.

(** [String.prototype.trim] and [String.prototype.toLowerCase] as they act
    on ASCII text.  The component is not embedded with these: it takes the
    two built-ins as given (see [Builtins] below), and its properties are
    proved whatever they are.  The ASCII versions serve to run the examples,
    whose texts are ASCII.

    White space on the ASCII range: TAB, LF, VT, FF, CR and SPACE. *)
Definition isWhiteSpace (c : ascii) : bool :=
  let n := nat_of_ascii c in
  (Nat.leb 9 n && Nat.leb n 13) || Nat.eqb n 32.

Fixpoint trimStart (s : string) : string :=
  match s with
  | EmptyString => EmptyString
  | String c r => if isWhiteSpace c then trimStart r else s
  end.

Fixpoint trimEnd (s : string) : string :=
  match s with
  | EmptyString => EmptyString
  | String c r =>
      match trimEnd r with
      | EmptyString => if isWhiteSpace c then EmptyString else String c EmptyString
      | r' => String c r'
      end
  end.

Definition trim (s : string) : string := trimEnd (trimStart s).

(** Truthiness of a string: every string but the empty one. *)
Definition truthy (s : string) : bool := negb (String.eqb s "").

(** Truthiness of a value that is either [undefined] or a string. *)
Definition truthy_opt (v : option string) : bool :=
  match v with
  | Some s => truthy s
  | None => false
  end.

(** Lower case on the ASCII range: A to Z. *)
Definition lowerChar (c : ascii) : ascii :=
  let n := nat_of_ascii c in
  if Nat.leb 65 n && Nat.leb n 90 then ascii_of_nat (n + 32) else c.

Fixpoint toLowerCase (s : string) : string :=
  match s with
  | EmptyString => EmptyString
  | String c r => String (lowerChar c) (toLowerCase r)
  end.

(** Strict equality on values that are [undefined] or a string; on these
    it coincides with the SameValueZero comparison of [Map] keys. *)
Definition key_eqb (a b : option string) : bool :=
  match a, b with
  | Some x, Some y => String.eqb x y
  | None, None => true
  | _, _ => false
  end.

(** A thrown value: an [Error] object with its message, or anything else. *)
Inductive Thrown : Type :=
| Error (message : string)
| NotAnError.

(** The settlement of a promise. *)
Inductive Settled (A : Type) : Type :=
| Fulfilled (value : A)
| Rejected (reason : Thrown).
Arguments Rejected {A} reason.

(** [Map]: an insertion-ordered association.  [set] on a key that is
    present replaces its value where the key already stands; on a new key
    it appends the entry. *)
Module Map.
Section Map.
Variable V : Type.

Definition t : Type := list (option string * V).

Fixpoint set (k : option string) (v : V) (m : t) : t :=
  match m with
  | [] => [(k, v)]
  | (k', v') :: m' =>
      if key_eqb k' k then (k, v) :: m' else (k', v') :: set k v m'
  end.

(** [new Map(iterable)]: the entries are [set] one after the other. *)
Definition of_entries (es : list (option string * V)) : t :=
  fold_left (fun m e => set (fst e) (snd e) m) es [].

(** [Array.from(m.values())]. *)
Definition values (m : t) : list V := map snd m.
End Map.
End Map.

End JS.

(** ** [types.ts] *)

Inductive AppState : Type :=
| INITIAL
| GENERATING_GUIDE
| STUDYING
| GENERATING_KEY_POINTS
| GENERATING_SUMMARY
| ASKING_QUESTION
| EVALUATING_ANSWER
| SHOWING_FEEDBACK
| QUIZ_COMPLETE
| SHOWING_HISTORY
| ERROR.

Record EvaluationFeedback : Type := mkFeedback {
  evaluation : string;
  explanation : string
}.

(** A [Source] as it exists at run time: [generateStudyGuide] builds these
    objects from [chunk.web?.uri] and [chunk.web?.title], either of which
    may be [undefined] until the filter has run. *)
Record Source : Type := mkSource {
  uri : option string;
  title : option string
}.

Module HistoryItem.
Record t : Type := make {
  topic : string;
  guide : string;
  sources : list Source
}.
End HistoryItem.

(** ** [services/geminiService.ts] *)

(** A grounding chunk, as far as the program reads it: [chunk.web] may be
    absent, and so may each of its two fields. *)
Module Web.
Record t : Type := make { uri : option string; title : option string }.
End Web.

Record Chunk : Type := mkChunk { web : option Web.t }.

(** The response of [models.generateContent], as far as the program reads
    it.  [json] is what [JSON.parse(text.trim())] yields on this response:
    [None] when the parser throws; the request carries [responseSchema], and
    a reply that parses is taken to be an object of that schema.
    [groundingChunks] is
    [candidates?.[0]?.groundingMetadata?.groundingChunks ?? []]. *)
Record Response : Type := mkResponse {
  text : string;
  json : option EvaluationFeedback;
  groundingChunks : list Chunk
}.

(** The object literal built from one grounding chunk. *)
Definition of_chunk (chunk : Chunk) : Source :=
  {| uri := match web chunk with Some w => Web.uri w | None => None end;
     title := match web chunk with Some w => Web.title w | None => None end |}.

(** [.filter(source => source.uri && source.title)] *)
Definition has_uri_and_title (source : Source) : bool :=
  JS.truthy_opt (uri source) && JS.truthy_opt (title source).

(** [Array.from(new Map(sources.map(item => [item['uri'], item])).values())] *)
Definition uniqueSources (sources : list Source) : list Source :=
  JS.Map.values (JS.Map.of_entries (map (fun item => (uri item, item)) sources)).

(** Source post-processing of [generateStudyGuide], from the candidate
    objects to the list it returns. *)
Definition postprocess (candidates : list Source) : list Source :=
  uniqueSources (filter has_uri_and_title candidates).

Import JS.

(** An argument [None] stands for everything that makes the [try] block
    throw: [getAiClient] failing or [models.generateContent] rejecting. *)
Definition generateStudyGuide (api : option Response)
  : Settled (string * list Source) :=
  match api with
  | Some response =>
      let guide := text response in
      let sources :=
        filter has_uri_and_title (map of_chunk (groundingChunks response)) in
      Fulfilled (guide, uniqueSources sources)
  | None => Rejected (Error "Failed to generate study guide. Please try again.")
  end.

Definition generateQuizQuestion (api : option Response) : Settled string :=
  match api with
  | Some response => Fulfilled (text response)
  | None => Rejected (Error "Failed to generate a new question. Please try again.")
  end.

Definition evaluateAnswer (api : option Response) : Settled EvaluationFeedback :=
  match api with
  | Some response =>
      match json response with
      | Some evaluation => Fulfilled evaluation
      | None => Rejected (Error "Failed to evaluate the answer. Please try again.")
      end
  | None => Rejected (Error "Failed to evaluate the answer. Please try again.")
  end.

Definition generateKeyPoints (api : option Response) : Settled string :=
  match api with
  | Some response => Fulfilled (text response)
  | None => Rejected (Error "Failed to generate key points. Please try again.")
  end.

Definition generateSummary (api : option Response) : Settled string :=
  match api with
  | Some response => Fulfilled (text response)
  | None => Rejected (Error "Failed to generate summary. Please try again.")
  end.

(** The five requests, with the arguments the prompts are built from. *)
Inductive Request : Type :=
| GenerateStudyGuide (topic : string)
| GenerateQuizQuestion (studyGuide : string) (previousQuestions : list string)
| EvaluateAnswer (studyGuide question answer : string)
| GenerateKeyPoints (studyGuide : string)
| GenerateSummary (studyGuide : string).

(** ** The [App] component: its state *)

Record State : Type := mkState {
  appState : AppState;
  error : option string;
  topic : string;
  studyGuide : string;
  sources : list Source;
  keyPoints : string;
  summary : string;
  questionsAsked : list string;
  currentQuestion : string;
  userAnswer : string;
  feedback : option EvaluationFeedback;
  score : nat;
  history : list HistoryItem.t
}.

Definition quizLength : nat := 5.

(** The values given to [useState]. *)
Definition initialState : State :=
  {| appState := INITIAL; error := None; topic := ""; studyGuide := "";
     sources := []; keyPoints := ""; summary := ""; questionsAsked := [];
     currentQuestion := ""; userAnswer := ""; feedback := None; score := 0;
     history := [] |}.

(** The state setters.  A handler reads the values of the render it was
    created in and queues updates; the updates are applied, in order, to the
    state current when they are processed. *)
Definition setAppState v (s : State) : State :=
  mkState v (error s) (topic s) (studyGuide s) (sources s) (keyPoints s)
    (summary s) (questionsAsked s) (currentQuestion s) (userAnswer s)
    (feedback s) (score s) (history s).
Definition setError v (s : State) : State :=
  mkState (appState s) v (topic s) (studyGuide s) (sources s) (keyPoints s)
    (summary s) (questionsAsked s) (currentQuestion s) (userAnswer s)
    (feedback s) (score s) (history s).
Definition setTopic v (s : State) : State :=
  mkState (appState s) (error s) v (studyGuide s) (sources s) (keyPoints s)
    (summary s) (questionsAsked s) (currentQuestion s) (userAnswer s)
    (feedback s) (score s) (history s).
Definition setStudyGuide v (s : State) : State :=
  mkState (appState s) (error s) (topic s) v (sources s) (keyPoints s)
    (summary s) (questionsAsked s) (currentQuestion s) (userAnswer s)
    (feedback s) (score s) (history s).
Definition setSources v (s : State) : State :=
  mkState (appState s) (error s) (topic s) (studyGuide s) v (keyPoints s)
    (summary s) (questionsAsked s) (currentQuestion s) (userAnswer s)
    (feedback s) (score s) (history s).
Definition setKeyPoints v (s : State) : State :=
  mkState (appState s) (error s) (topic s) (studyGuide s) (sources s) v
    (summary s) (questionsAsked s) (currentQuestion s) (userAnswer s)
    (feedback s) (score s) (history s).
Definition setSummary v (s : State) : State :=
  mkState (appState s) (error s) (topic s) (studyGuide s) (sources s)
    (keyPoints s) v (questionsAsked s) (currentQuestion s) (userAnswer s)
    (feedback s) (score s) (history s).
Definition setQuestionsAsked v (s : State) : State :=
  mkState (appState s) (error s) (topic s) (studyGuide s) (sources s)
    (keyPoints s) (summary s) v (currentQuestion s) (userAnswer s)
    (feedback s) (score s) (history s).
Definition setCurrentQuestion v (s : State) : State :=
  mkState (appState s) (error s) (topic s) (studyGuide s) (sources s)
    (keyPoints s) (summary s) (questionsAsked s) v (userAnswer s)
    (feedback s) (score s) (history s).
Definition setUserAnswer v (s : State) : State :=
  mkState (appState s) (error s) (topic s) (studyGuide s) (sources s)
    (keyPoints s) (summary s) (questionsAsked s) (currentQuestion s) v
    (feedback s) (score s) (history s).
Definition setFeedback v (s : State) : State :=
  mkState (appState s) (error s) (topic s) (studyGuide s) (sources s)
    (keyPoints s) (summary s) (questionsAsked s) (currentQuestion s)
    (userAnswer s) v (score s) (history s).
Definition setScore v (s : State) : State :=
  mkState (appState s) (error s) (topic s) (studyGuide s) (sources s)
    (keyPoints s) (summary s) (questionsAsked s) (currentQuestion s)
    (userAnswer s) (feedback s) v (history s).
Definition setHistory v (s : State) : State :=
  mkState (appState s) (error s) (topic s) (studyGuide s) (sources s)
    (keyPoints s) (summary s) (questionsAsked s) (currentQuestion s)
    (userAnswer s) (feedback s) (score s) v.

(** Queued updates, processed in the order in which they were queued. *)
Definition queued (updates : list (State -> State)) (s : State) : State :=
  fold_left (fun s update => update s) updates s.

(** A handler suspended at its [await]: what it will do when the promise
    settles, together with the values of its render that it still reads. *)
Inductive Awaiting : Type :=
| TopicSubmitted (topic : string) (history : list HistoryItem.t)
| QuestionRequested
| AnswerSubmitted
| KeyPointsRequested
| SummaryRequested.

(** A Content Service call in flight. *)
Record Call : Type := mkCall {
  request : Request;
  awaiting : Awaiting
}.

(** ** The [App] component: its handlers

    Every handler takes the state of the render it closes over ([render],
    which it reads) and the state its updates are queued on ([s]); it returns
    the updated state and the call it is suspended on, if any. *)

Definition resetQuizState : State -> State :=
  queued [setQuestionsAsked []; setCurrentQuestion ""; setUserAnswer "";
          setFeedback None; setScore 0].

Definition resetAllState : State -> State :=
  queued [setTopic ""; setStudyGuide ""; setSources []; setKeyPoints "";
          setSummary ""; setError None; resetQuizState; setAppState INITIAL].

(** [err instanceof Error ? err.message : 'An unknown error occurred.'] *)
Definition errorMessage (err : Thrown) : string :=
  match err with
  | Error message => message
  | NotAnError => "An unknown error occurred."
  end.

(** The [catch] block shared by the asynchronous handlers. *)
Definition catch (err : Thrown) : State -> State :=
  queued [setError (Some (errorMessage err)); setAppState ERROR].

(** ** The string built-ins

    [String.prototype.trim] and [String.prototype.toLowerCase] belong to the
    language, not to the program, and are taken as given: nothing is assumed
    of them, so that what is proved of the program holds of it with the
    built-ins of any engine, on any text.  A [string] stands for a JavaScript
    string; the component compares strings with [===], tests them for
    emptiness and applies the two built-ins, nothing more. *)
Class Builtins : Type := {
  trim : string -> string;
  toLowerCase : string -> string
}.

(** The built-ins on ASCII text, for the examples. *)
Definition asciiBuiltins : Builtins :=
  {| trim := JS.trim; toLowerCase := JS.toLowerCase |}.

Section App.

Context {builtins : Builtins}.

(** [item.topic.toLowerCase() === topic.toLowerCase()] *)
Definition same_topic (topic : string) (item : HistoryItem.t) : bool :=
  String.eqb (toLowerCase (HistoryItem.topic item)) (toLowerCase topic).

Definition handleTopicSubmit (render s : State) : State * option Call :=
  if negb (truthy (trim (topic render))) then (s, None)
  else
    (queued [setAppState GENERATING_GUIDE; setError None; setStudyGuide "";
             setSources []; setKeyPoints ""; setSummary ""; resetQuizState] s,
     Some (mkCall (GenerateStudyGuide (topic render))
                  (TopicSubmitted (topic render) (history render)))).

Definition handleTopicSubmit_settled (topic : string)
    (history : list HistoryItem.t)
    (settled : Settled (string * list Source)) : State -> State :=
  match settled with
  | Fulfilled (guide, sources) =>
      queued ([setStudyGuide guide; setSources sources; setAppState STUDYING]
              ++ (if negb (existsb (same_topic topic) history)
                  then [setHistory (HistoryItem.make topic guide sources :: history)]
                  else []))
  | Rejected err => catch err
  end.

Definition fetchNextQuestion (render s : State) : State * option Call :=
  let s := queued [setUserAnswer ""; setFeedback None] s in
  if Nat.leb quizLength (List.length (questionsAsked render))
  then (setAppState QUIZ_COMPLETE s, None)
  else
    (setAppState ASKING_QUESTION s,
     Some (mkCall (GenerateQuizQuestion (studyGuide render) (questionsAsked render))
                  QuestionRequested)).

Definition fetchNextQuestion_settled (settled : Settled string)
  : State -> State :=
  match settled with
  | Fulfilled question =>
      queued [setCurrentQuestion question;
              fun prev => setQuestionsAsked (questionsAsked prev ++ [question]) prev]
  | Rejected err => catch err
  end.

(** [fetchNextQuestion] is the one of the same render: it reads [render],
    not the state [resetQuizState] has just queued. *)
Definition handleStartQuiz (render s : State) : State * option Call :=
  fetchNextQuestion render
    (queued [resetQuizState; setAppState ASKING_QUESTION] s).

Definition handleAnswerSubmit (render s : State) : State * option Call :=
  if negb (truthy (trim (userAnswer render))) then (s, None)
  else
    (queued [setAppState EVALUATING_ANSWER; setError None] s,
     Some (mkCall (EvaluateAnswer (studyGuide render) (currentQuestion render)
                                  (userAnswer render))
                  AnswerSubmitted)).

Definition handleAnswerSubmit_settled (settled : Settled EvaluationFeedback)
  : State -> State :=
  match settled with
  | Fulfilled evalFeedback =>
      queued ([setFeedback (Some evalFeedback)]
              ++ (if String.eqb (evaluation evalFeedback) "Correct"
                  then [fun prev => setScore (score prev + 1) prev]
                  else [])
              ++ [setAppState SHOWING_FEEDBACK])
  | Rejected err => catch err
  end.

Definition handleGetKeyPoints (render s : State) : State * option Call :=
  if truthy (keyPoints render) then (setKeyPoints "" s, None)
  else
    (queued [setSummary ""; setAppState GENERATING_KEY_POINTS] s,
     Some (mkCall (GenerateKeyPoints (studyGuide render)) KeyPointsRequested)).

Definition handleGetKeyPoints_settled (settled : Settled string)
  : State -> State :=
  match settled with
  | Fulfilled points => queued [setKeyPoints points; setAppState STUDYING]
  | Rejected err => catch err
  end.

Definition handleGetSummary (render s : State) : State * option Call :=
  if truthy (summary render) then (setSummary "" s, None)
  else
    (queued [setKeyPoints ""; setAppState GENERATING_SUMMARY] s,
     Some (mkCall (GenerateSummary (studyGuide render)) SummaryRequested)).

Definition handleGetSummary_settled (settled : Settled string)
  : State -> State :=
  match settled with
  | Fulfilled result => queued [setSummary result; setAppState STUDYING]
  | Rejected err => catch err
  end.

Definition handleSelectHistoryItem (item : HistoryItem.t) : State -> State :=
  queued [resetAllState; setTopic (HistoryItem.topic item);
          setStudyGuide (HistoryItem.guide item);
          setSources (HistoryItem.sources item); setAppState STUDYING].

(** The suspended handler runs on: the service function turns the outcome
    of the request into the settlement of its promise, and the rest of the
    handler queues its updates. *)
Definition resume (k : Awaiting) (api : option Response) : State -> State :=
  match k with
  | TopicSubmitted topic history =>
      handleTopicSubmit_settled topic history (generateStudyGuide api)
  | QuestionRequested => fetchNextQuestion_settled (generateQuizQuestion api)
  | AnswerSubmitted => handleAnswerSubmit_settled (evaluateAnswer api)
  | KeyPointsRequested => handleGetKeyPoints_settled (generateKeyPoints api)
  | SummaryRequested => handleGetSummary_settled (generateSummary api)
  end.

(** ** The [App] component: its view

    What the user can do, and when: the controls [renderContent] puts on the
    screen in each state.  (The dark-mode switch, which touches nothing
    else, is left out.) *)
Inductive Action : Type :=
| TopicInput (value : string)
| TopicSubmit
| SelectHistoryItem (index : nat)
| ViewAllHistory
| BackFromHistory
| BackToNewTopic
| StartQuiz
| GetSummary
| GetKeyPoints
| AnswerInput (value : string)
| AnswerSubmit
| NextQuestion.

Definition offered (s : State) (a : Action) : bool :=
  match appState s, a with
  | INITIAL, TopicInput _ => true
  | INITIAL, TopicSubmit => true
  | INITIAL, SelectHistoryItem index =>
      Nat.ltb index (List.length (firstn 5 (history s)))
  | INITIAL, ViewAllHistory => Nat.ltb 5 (List.length (history s))
  | STUDYING, (BackToNewTopic | StartQuiz | GetSummary | GetKeyPoints) => true
  | ASKING_QUESTION, (AnswerInput _ | AnswerSubmit) =>
      Nat.ltb 0 (List.length (questionsAsked s))
  | SHOWING_FEEDBACK, NextQuestion =>
      match feedback s with Some _ => true | None => false end
  | QUIZ_COMPLETE, (StartQuiz | BackToNewTopic) => true
  | SHOWING_HISTORY, BackFromHistory => true
  | SHOWING_HISTORY, SelectHistoryItem index =>
      Nat.ltb index (List.length (history s))
  | ERROR, BackToNewTopic => true
  | _, _ => false
  end.

(** The handler behind each control, run in the render [s].  The two
    submit buttons are disabled on a blank input; the forms are offered all
    the same, since their handlers test the input again. *)
Definition handle (a : Action) (s : State) : State * option Call :=
  match a with
  | TopicInput value => (setTopic value s, None)
  | TopicSubmit => handleTopicSubmit s s
  | SelectHistoryItem index =>
      match nth_error (history s) index with
      | Some item => (handleSelectHistoryItem item s, None)
      | None => (s, None)
      end
  | ViewAllHistory => (setAppState SHOWING_HISTORY s, None)
  | BackFromHistory => (setAppState INITIAL s, None)
  | BackToNewTopic => (resetAllState s, None)
  | StartQuiz => handleStartQuiz s s
  | GetSummary => handleGetSummary s s
  | GetKeyPoints => handleGetKeyPoints s s
  | AnswerInput value => (setUserAnswer value s, None)
  | AnswerSubmit => handleAnswerSubmit s s
  | NextQuestion => fetchNextQuestion s s
  end.

(** ** The [App] component: local persistence

    The record ['studyBuddyHistory'] of [localStorage].  What is stored is
    either nothing, a text [JSON.parse] rejects, or the text
    [JSON.stringify] made of a history, which [JSON.parse] reads back.
    Either access may throw (storage disabled, quota exceeded). *)
Inductive Stored : Type :=
| Absent
| Unparseable (raw : string)
| Serialized (h : list HistoryItem.t).

Record Storage : Type := mkStorage {
  item : Stored;
  getItem_throws : bool;
  setItem_throws : bool
}.

(** The effect run on mount.  Its [catch] only logs. *)
Definition loadHistory (storage : Storage) (s : State) : State :=
  if getItem_throws storage then s
  else
    match item storage with
    | Absent => s
    | Unparseable _ => s
    | Serialized h => setHistory h s
    end.

(** The effect that depends on [history].  Its [catch] only logs. *)
Definition saveHistory (h : list HistoryItem.t) (storage : Storage) : Storage :=
  if setItem_throws storage then storage
  else mkStorage (Serialized h) (getItem_throws storage) (setItem_throws storage).

Definition Source_eq_dec (a b : Source) : {a = b} + {a <> b}.
Proof. repeat decide equality. Defined.

Definition HistoryItem_eq_dec (a b : HistoryItem.t) : {a = b} + {a <> b}.
Proof.
  decide equality;
    first [ apply string_dec | apply (list_eq_dec Source_eq_dec) ].
Defined.

(** ** The running application *)

Record World : Type := mkWorld {
  state : State;
  inflight : list Call;
  storage : Storage
}.

(** A render after the queued updates were processed: the effect on
    [history] runs when [history] changed. *)
Definition rerender (w : World) (s' : State) (calls : list Call) : World :=
  mkWorld s' calls
    (if list_eq_dec HistoryItem_eq_dec (history s') (history (state w))
     then storage w
     else saveHistory (history s') (storage w)).

(** First render and the two mount effects, in the order of the source: the
    history is read, then the history of the first render (empty) is
    written, and written again after the render that follows [setHistory]. *)
Definition mount (storage : Storage) : World :=
  let s := loadHistory storage initialState in
  rerender (mkWorld initialState [] (saveHistory [] storage)) s [].

Inductive Event : Type :=
| Do (a : Action)
| Settle (i : nat) (api : option Response).

Definition step (w : World) (e : Event) : option World :=
  match e with
  | Do a =>
      if offered (state w) a
      then
        let (s', call) := handle a (state w) in
        Some (rerender w s'
                (inflight w ++ match call with Some c => [c] | None => [] end))
      else None
  | Settle i api =>
      match nth_error (inflight w) i with
      | Some c =>
          Some (rerender w (resume (awaiting c) api (state w))
                  (firstn i (inflight w) ++ skipn (S i) (inflight w)))
      | None => None
      end
  end.

Fixpoint run (w : World) (es : list Event) : option World :=
  match es with
  | [] => Some w
  | e :: es' =>
      match step w e with
      | Some w' => run w' es'
      | None => None
      end
  end.

(** Runs in which the user waits: no control is used while a call is in
    flight, so that at most one call is in flight at any time. *)
Definition waits (w : World) (e : Event) : bool :=
  match e with
  | Do _ => match inflight w with [] => true | _ :: _ => false end
  | Settle _ _ => true
  end.

Fixpoint run_waiting (w : World) (es : list Event) : option World :=
  match es with
  | [] => Some w
  | e :: es' =>
      if waits w e
      then match step w e with
           | Some w' => run_waiting w' es'
           | None => None
           end
      else None
  end.

(** The bound on the questions of a quiz, with what a pending request for a
    question will add. *)
Definition within_quiz (w : World) : Prop :=
  List.length (questionsAsked (state w)) <= quizLength
  /\ List.length (inflight w) <= 1
  /\ forall c, In c (inflight w) -> awaiting c = QuestionRequested ->
       List.length (questionsAsked (state w)) < quizLength.

(** ** Source deduplication as the specification words it *)

(** Deduplicate by [uri], keeping the first occurrence of each and the
    order in which the first occurrences were seen. *)
Fixpoint keep_first (l : list Source) : list Source :=
  match l with
  | [] => []
  | x :: r =>
      x :: filter (fun y => negb (key_eqb (uri y) (uri x))) (keep_first r)
  end.

(** The last entry of [l] that has the [uri] of [x] ([x] itself if none). *)
Definition latest (l : list Source) (x : Source) : Source :=
  match find (fun y => key_eqb (uri y) (uri x)) (rev l) with
  | Some y => y
  | None => x
  end.

Definition has_uri (x y : Source) : bool := key_eqb (uri y) (uri x).

(** [put x l]: what [Map.set (uri x) x] does to the values of a map whose
    every value sits under its own [uri]. *)
Fixpoint put (x : Source) (l : list Source) : list Source :=
  match l with
  | [] => [x]
  | y :: r => if key_eqb (uri y) (uri x) then x :: r else y :: put x r
  end.

Definition entries (l : list Source) : list (option string * Source) :=
  map (fun item => (uri item, item)) l.

(** ** Compositions used in the statements *)

(** A handler followed at once by the settlement of the call it made. *)
Definition then_settled (p : State * option Call) (api : option Response)
  : State :=
  match snd p with
  | Some c => resume (awaiting c) api (fst p)
  | None => fst p
  end.

Definition submitTopic (s : State) (api : option Response) : State :=
  then_settled (handleTopicSubmit s s) api.

Definition toggleKeyPoints (s : State) (api : option Response) : State :=
  then_settled (handleGetKeyPoints s s) api.

Definition toggleSummary (s : State) (api : option Response) : State :=
  then_settled (handleGetSummary s s) api.

(** The reason with which the promise a handler awaits rejects, if it does. *)
Definition rejection (k : Awaiting) (api : option Response) : option Thrown :=
  let reason {A} (settled : Settled A) :=
    match settled with
    | Fulfilled _ => None
    | Rejected err => Some err
    end in
  match k with
  | TopicSubmitted _ _ => reason (generateStudyGuide api)
  | QuestionRequested => reason (generateQuizQuestion api)
  | AnswerSubmitted => reason (evaluateAnswer api)
  | KeyPointsRequested => reason (generateKeyPoints api)
  | SummaryRequested => reason (generateSummary api)
  end.

(** What is stored is the serialization of the current history. *)
Definition mirrored (w : World) : Prop :=
  item (storage w) = Serialized (history (state w)).

(** ** Sample data *)

Definition emptyStorage : Storage := mkStorage Absent false false.

Definition replies (text : string) : option Response :=
  Some (mkResponse text None []).

Definition evaluates (evaluation : string) : option Response :=
  Some (mkResponse "{...}" (Some (mkFeedback evaluation "because")) []).

(** One question of a quiz: the answer is typed and submitted, evaluated
    with [evaluation], and the next question is asked for. *)
Definition answers (evaluation : string) : list Event :=
  [Do (AnswerInput "an answer"); Do AnswerSubmit; Settle 0 (evaluates evaluation);
   Do NextQuestion].

(** A topic is studied and a whole quiz is taken, each call settling before
    the user acts again. *)
Definition wholeQuiz : list Event :=
  [Do (TopicInput "Photosynthesis"); Do TopicSubmit; Settle 0 (replies "guide");
   Do StartQuiz; Settle 0 (replies "q1")]
  ++ answers "Correct" ++ [Settle 0 (replies "q2")]
  ++ answers "Correct" ++ [Settle 0 (replies "q3")]
  ++ answers "Incorrect" ++ [Settle 0 (replies "q4")]
  ++ answers "Correct" ++ [Settle 0 (replies "q5")]
  ++ answers "Incorrect".

(** The same start, but from the second question on the user answers the
    question still on the screen while the next one is being asked for:
    [again i] submits an answer, has it evaluated (the call at place [i] in
    flight) and asks for the next question, with the earlier requests for a
    question still pending. *)
Definition again (i : nat) : list Event :=
  [Do (AnswerInput "an answer"); Do AnswerSubmit; Settle i (evaluates "Correct");
   Do NextQuestion].

Definition overlapping : list Event :=
  [Do (TopicInput "Photosynthesis"); Do TopicSubmit; Settle 0 (replies "guide");
   Do StartQuiz; Settle 0 (replies "q1")]
  ++ answers "Correct" ++ again 1 ++ again 2 ++ again 3 ++ again 4
  ++ [Settle 0 (replies "q2"); Settle 0 (replies "q3"); Settle 0 (replies "q4");
      Settle 0 (replies "q5"); Settle 0 (replies "q6")].

(** The first question is answered, the next one asked for; the user
    answers the first question once more meanwhile.  The request for the
    question then fails, and the evaluation comes back after it. *)
Definition evaluatedAfterFailure : list Event :=
  [Do (TopicInput "Photosynthesis"); Do TopicSubmit; Settle 0 (replies "guide");
   Do StartQuiz; Settle 0 (replies "q1")]
  ++ answers "Correct"
  ++ [Do (AnswerInput "an answer"); Do AnswerSubmit; Settle 0 None;
      Settle 0 (evaluates "Correct")].

(** After the quiz the same topic is submitted again, in capitals. *)
Definition studiedTwice : list Event :=
  wholeQuiz
  ++ [Do BackToNewTopic; Do (TopicInput "PHOTOSYNTHESIS"); Do TopicSubmit;
      Settle 0 (replies "another guide")].

(** A quiz taken to its end, the user waiting for every call, with the
    evaluations the answers receive. *)
Fixpoint rounds (evaluations : list string) : list Event :=
  match evaluations with
  | [] => []
  | [evaluation] => answers evaluation
  | evaluation :: rest =>
      answers evaluation ++ [Settle 0 (replies "a question")] ++ rounds rest
  end.

Definition quizWith (evaluations : list string) : list Event :=
  [Do (TopicInput "Photosynthesis"); Do TopicSubmit; Settle 0 (replies "guide");
   Do StartQuiz; Settle 0 (replies "a question")]
  ++ rounds evaluations.

(** The first question is answered and the next one asked for.  With that
    request pending the question is answered again and the evaluation
    fails; the user goes back and submits a topic; the pending request for a
    question fails; the user goes back again and submits another topic.  Two
    requests for a guide are now in flight, and both succeed. *)
Definition twoGuidesInFlight : list Event :=
  [Do (TopicInput "Photosynthesis"); Do TopicSubmit; Settle 0 (replies "guide");
   Do StartQuiz; Settle 0 (replies "q1")]
  ++ answers "Correct"
  ++ [Do (AnswerInput "an answer"); Do AnswerSubmit; Settle 1 None;
      Do BackToNewTopic; Do (TopicInput "Mitosis"); Do TopicSubmit;
      Settle 0 None;
      Do BackToNewTopic; Do (TopicInput "Meiosis"); Do TopicSubmit;
      Settle 0 (replies "guide on mitosis");
      Settle 0 (replies "guide on meiosis")].

(** ** Stored text that is not a history

    [Stored] describes what the application itself leaves in the storage, and
    text that does not parse.  [JSON.parse] also accepts text that is not the
    serialization of a history; of such text, [null] is modelled here. *)
Inductive Persisted : Type :=
| Kept (item : Stored)
| JsonNull.

(** What the mount effect gives to [setHistory], when it calls it.  The
    text [null] is a non-empty string, hence parsed, and parses to [null]. *)
Inductive Loaded : Type :=
| NotLoaded
| LoadedList (h : list HistoryItem.t)
| LoadedNull.

Definition parsedHistory (persisted : Persisted) (getItem_throws : bool)
  : Loaded :=
  if getItem_throws then NotLoaded
  else
    match persisted with
    | Kept Absent => NotLoaded
    | Kept (Unparseable _) => NotLoaded
    | Kept (Serialized h) => LoadedList h
    | JsonNull => LoadedNull
    end.

(** The render that follows the mount effects: the initial screen, which
    reads [history.length].  On [null] that is a TypeError thrown while
    rendering; there is no error boundary, and the component tree is
    unmounted. *)
Inductive Startup : Type :=
| Running (s : State)
| RenderThrows.

Definition startup (persisted : Persisted) (getItem_throws : bool) : Startup :=
  match parsedHistory persisted getItem_throws with
  | NotLoaded => Running initialState
  | LoadedList h => Running (setHistory h initialState)
  | LoadedNull => RenderThrows
  end.

(** ** The [App] component: what is rendered *)

(** The colour of the feedback panel: green, yellow or red. *)
Inductive Tone : Type := Green | Yellow | Red.

(** The screens of [renderContent], with what they show that the
    properties below speak of.  (Its [default] branch is never taken: the
    eleven states are all listed.) *)
Inductive View : Type :=
| InitialView (recent : list HistoryItem.t) (viewAll : bool)
| LoadingView (message : string)
| StudyGuideView
| QuestionView (asked : nat) (question : string)
| FeedbackView (tone : Tone) (finish : bool)
| NoView
| QuizCompleteView (finalScore : nat)
| HistoryView (entries : list HistoryItem.t)
| ErrorView (message : option string).

Definition renderInitialView (s : State) : View :=
  InitialView
    (if Nat.ltb 0 (List.length (history s)) then firstn 5 (history s) else [])
    (Nat.ltb 0 (List.length (history s)) && Nat.ltb 5 (List.length (history s))).

Definition renderLoadingView (s : State) : View :=
  LoadingView
    match appState s with
    | GENERATING_GUIDE => "Generating your personalized study guide..."
    | GENERATING_KEY_POINTS => "Extracting key points..."
    | GENERATING_SUMMARY => "Creating a summary..."
    | ASKING_QUESTION => "Coming up with a good question..."
    | EVALUATING_ANSWER => "Evaluating your answer..."
    | _ => "Thinking..."
    end.

Definition renderQuestionView (s : State) : View :=
  QuestionView (List.length (questionsAsked s)) (currentQuestion s).

Definition renderFeedbackView (s : State) : View :=
  match feedback s with
  | None => NoView
  | Some fb =>
      let isCorrect := String.eqb (evaluation fb) "Correct" in
      let isPartiallyCorrect := String.eqb (evaluation fb) "Partially Correct" in
      FeedbackView
        (if isCorrect then Green else if isPartiallyCorrect then Yellow else Red)
        (Nat.leb quizLength (List.length (questionsAsked s)))
  end.

Definition renderContent (s : State) : View :=
  match appState s with
  | INITIAL => renderInitialView s
  | GENERATING_GUIDE | GENERATING_KEY_POINTS | GENERATING_SUMMARY
  | EVALUATING_ANSWER => renderLoadingView s
  | STUDYING => StudyGuideView
  | ASKING_QUESTION =>
      if Nat.ltb 0 (List.length (questionsAsked s)) then renderQuestionView s
      else renderLoadingView s
  | SHOWING_FEEDBACK => renderFeedbackView s
  | QUIZ_COMPLETE => QuizCompleteView (score s)
  | SHOWING_HISTORY => HistoryView (history s)
  | ERROR => ErrorView (error s)
  end.

(** ** [services/geminiService.ts]: the client *)

Section Client.

(** The client, and what [new GoogleGenAI(...)] yields: [None] when the
    constructor throws. *)
Variable GoogleGenAI : Type.
Variable construct : option GoogleGenAI.

(** [getAiClient], on the module variable [ai]: the variable afterwards and
    the client returned ([None] when the call throws). *)
Definition getAiClient (ai : option GoogleGenAI)
  : option GoogleGenAI * option GoogleGenAI :=
  match ai with
  | Some client => (ai, Some client)
  | None =>
      match construct with
      | Some client => (Some client, Some client)
      | None => (None, None)
      end
  end.

(** [n] calls in a row: the variable after the last, and what each
    returned. *)
Fixpoint getAiClient_times (n : nat) (ai : option GoogleGenAI)
  : option GoogleGenAI * list (option GoogleGenAI) :=
  match n with
  | 0 => (ai, [])
  | S n' =>
      let (ai', returned) := getAiClient ai in
      let (ai'', rest) := getAiClient_times n' ai' in
      (ai'', returned :: rest)
  end.

End Client.

(** ** Invariants *)

(** No two entries for one topic, up to letter case. *)
Definition distinct_topics (h : list HistoryItem.t) : Prop :=
  NoDup (map (fun item => toLowerCase (HistoryItem.topic item)) h).

Definition distinct_histories (w : World) : Prop :=
  distinct_topics (history (state w))
  /\ forall c t h, In c (inflight w) -> awaiting c = TopicSubmitted t h ->
       distinct_topics h.

(** What holds of the state and of the call in flight when the user waits
    for every call: the state tells which call is in flight, the call was
    made from the data now in the state, and the quiz data fit together. *)
Definition coherent (s : State) (calls : list Call) : Prop :=
  score s <= List.length (questionsAsked s)
  /\ List.length (questionsAsked s) <= quizLength
  /\ (keyPoints s = "" \/ summary s = "")
  /\ match calls with
     | [] =>
         match appState s with
         | GENERATING_GUIDE | GENERATING_KEY_POINTS | GENERATING_SUMMARY
         | EVALUATING_ANSWER => False
         | ASKING_QUESTION => score s + 1 <= List.length (questionsAsked s)
         | INITIAL | STUDYING | SHOWING_HISTORY => questionsAsked s = []
         | QUIZ_COMPLETE =>
             List.length (questionsAsked s) = quizLength
             \/ questionsAsked s = []
         | SHOWING_FEEDBACK | ERROR => True
         end
     | [c] =>
         match awaiting c, appState s with
         | TopicSubmitted t h, GENERATING_GUIDE =>
             request c = GenerateStudyGuide (topic s)
             /\ t = topic s /\ h = history s
             /\ questionsAsked s = [] /\ keyPoints s = "" /\ summary s = ""
         | QuestionRequested, ASKING_QUESTION =>
             request c = GenerateQuizQuestion (studyGuide s) (questionsAsked s)
             /\ List.length (questionsAsked s) < quizLength
         | AnswerSubmitted, EVALUATING_ANSWER =>
             request c = EvaluateAnswer (studyGuide s) (currentQuestion s)
                           (userAnswer s)
             /\ score s + 1 <= List.length (questionsAsked s)
         | KeyPointsRequested, GENERATING_KEY_POINTS =>
             request c = GenerateKeyPoints (studyGuide s)
             /\ questionsAsked s = [] /\ summary s = ""
         | SummaryRequested, GENERATING_SUMMARY =>
             request c = GenerateSummary (studyGuide s)
             /\ questionsAsked s = [] /\ keyPoints s = ""
         | _, _ => False
         end
     | _ :: _ :: _ => False
     end.

(** * Properties *)

(** ** Keys *)

Lemma key_eqb_spec a b : reflect (a = b) (key_eqb a b).
Proof.
  destruct a as [x|], b as [y|]; simpl; try (constructor; congruence).
  destruct (String.eqb_spec x y); constructor; congruence.
Qed.

Lemma key_eqb_refl a : key_eqb a a = true.
Proof. destruct (key_eqb_spec a a); congruence. Qed.

Lemma key_eqb_sym a b : key_eqb a b = key_eqb b a.
Proof. destruct (key_eqb_spec a b), (key_eqb_spec b a); congruence. Qed.

(** ** Source deduplication *)

Lemma set_entries x l :
  Map.set (uri x) x (entries l) = entries (put x l).
Proof.
  induction l as [|y r IH]; simpl; [reflexivity|].
  destruct (key_eqb (uri y) (uri x)); simpl; [reflexivity|].
  now rewrite IH.
Qed.

Lemma values_entries l : Map.values (entries l) = l.
Proof.
  unfold Map.values, entries. rewrite map_map. simpl. apply map_id.
Qed.

Lemma of_entries_snoc l x :
  Map.of_entries (entries (l ++ [x]))
  = Map.set (uri x) x (Map.of_entries (entries l)).
Proof.
  unfold Map.of_entries, entries. rewrite map_app, fold_left_app.
  reflexivity.
Qed.

Lemma of_entries_keyed l :
  exists vs, Map.of_entries (entries l) = entries vs.
Proof.
  induction l as [|x l IH] using rev_ind.
  - exists []. reflexivity.
  - destruct IH as [vs E]. exists (put x vs).
    now rewrite of_entries_snoc, E, set_entries.
Qed.

Lemma uniqueSources_snoc l x :
  uniqueSources (l ++ [x]) = put x (uniqueSources l).
Proof.
  unfold uniqueSources. fold (entries (l ++ [x])). fold (entries l).
  rewrite of_entries_snoc.
  destruct (of_entries_keyed l) as [vs E].
  now rewrite E, set_entries, !values_entries.
Qed.

Lemma keep_first_snoc l x :
  keep_first (l ++ [x])
  = if existsb (has_uri x) l then keep_first l else keep_first l ++ [x].
Proof.
  induction l as [|a l IH]; simpl; [reflexivity|].
  rewrite IH.
  destruct (existsb (has_uri x) l).
  - now rewrite orb_true_r.
  - rewrite orb_false_r, filter_app. simpl. unfold has_uri.
    rewrite (key_eqb_sym (uri x) (uri a)).
    destruct (key_eqb (uri a) (uri x)); simpl;
      [now rewrite app_nil_r | reflexivity].
Qed.

Lemma keep_first_incl l y : In y (keep_first l) -> In y l.
Proof.
  revert y. induction l as [|a l IH]; simpl; intros y H; [assumption|].
  destruct H as [H|H]; [now left|].
  apply filter_In in H. right. now apply IH.
Qed.

Lemma existsb_keep_first x l :
  existsb (has_uri x) (keep_first l) = existsb (has_uri x) l.
Proof.
  induction l as [|a l IH]; simpl; [reflexivity|].
  unfold has_uri at 1 3.
  destruct (key_eqb_spec (uri a) (uri x)) as [E|N]; simpl; [reflexivity|].
  rewrite <- IH. clear IH.
  induction (keep_first l) as [|b r IHr]; simpl; [reflexivity|].
  destruct (key_eqb_spec (uri b) (uri a)) as [E'|N']; simpl.
  - rewrite IHr. unfold has_uri at 2.
    destruct (key_eqb_spec (uri b) (uri x)); [congruence | reflexivity].
  - now rewrite IHr.
Qed.

Lemma NoDup_filter_map (p : Source -> bool) l :
  NoDup (map uri l) -> NoDup (map uri (filter p l)).
Proof.
  induction l as [|a l IH]; simpl; intros H; [constructor|].
  inversion H as [|? ? Hn Hd]; subst.
  destruct (p a); simpl; [|now apply IH].
  constructor; [|now apply IH].
  intros Hin. apply Hn. apply in_map_iff in Hin.
  destruct Hin as [z [Ez Hz]]. apply filter_In in Hz.
  apply in_map_iff. exists z. tauto.
Qed.

Lemma keep_first_NoDup l : NoDup (map uri (keep_first l)).
Proof.
  induction l as [|a l IH]; simpl; constructor.
  - intros Hin. apply in_map_iff in Hin. destruct Hin as [z [Ez Hz]].
    apply filter_In in Hz. destruct Hz as [_ Hz].
    rewrite Ez, key_eqb_refl in Hz. discriminate.
  - now apply NoDup_filter_map.
Qed.

Lemma latest_uri l y : uri (latest l y) = uri y.
Proof.
  unfold latest.
  destruct (find _ (rev l)) as [z|] eqn:F; [|reflexivity].
  apply find_some in F. destruct F as [_ F].
  now destruct (key_eqb_spec (uri z) (uri y)).
Qed.

Lemma latest_snoc l x y :
  latest (l ++ [x]) y = if has_uri y x then x else latest l y.
Proof.
  unfold latest, has_uri. rewrite rev_app_distr. simpl.
  now destruct (key_eqb (uri x) (uri y)).
Qed.

Lemma latest_In l y : In y l -> In (latest l y) l.
Proof.
  intros H. unfold latest.
  destruct (find _ (rev l)) as [z|] eqn:F; [|assumption].
  apply find_some in F. apply in_rev. tauto.
Qed.

Lemma existsb_latest x l r :
  existsb (has_uri x) (map (latest l) r) = existsb (has_uri x) r.
Proof.
  induction r as [|a r IHr]; simpl; [reflexivity|].
  rewrite IHr. unfold has_uri at 1 3. now rewrite latest_uri.
Qed.

(** [put] on a list that does not hold the key appends. *)
Lemma put_fresh x l :
  existsb (has_uri x) l = false -> put x l = l ++ [x].
Proof.
  induction l as [|a l IH]; simpl; intros H; [reflexivity|].
  apply orb_false_elim in H. destruct H as [Ha Hl].
  unfold has_uri in Ha. rewrite Ha. now rewrite IH.
Qed.

(** [put] on a list that holds the key once replaces that entry. *)
Lemma put_present x l :
  NoDup (map uri l) -> existsb (has_uri x) l = true ->
  put x l = map (fun y => if has_uri y x then x else y) l.
Proof.
  induction l as [|a l IH]; simpl; intros Hd H; [discriminate|].
  inversion Hd as [|? ? Hn Hd']; subst.
  unfold has_uri at 1. rewrite (key_eqb_sym (uri x) (uri a)).
  destruct (key_eqb_spec (uri a) (uri x)) as [E|N].
  - f_equal. symmetry. rewrite <- (map_id l) at 2.
    apply map_ext_in. intros z Hz. unfold has_uri.
    destruct (key_eqb_spec (uri x) (uri z)) as [E'|]; [|reflexivity].
    exfalso. apply Hn. rewrite E, E'. now apply in_map.
  - f_equal. apply IH; [assumption|].
    unfold has_uri in H at 1.
    destruct (key_eqb_spec (uri a) (uri x)); [contradiction | exact H].
Qed.

Lemma uniqueSources_latest l :
  uniqueSources l = map (latest l) (keep_first l).
Proof.
  induction l as [|x l IH] using rev_ind; [reflexivity|].
  rewrite uniqueSources_snoc, keep_first_snoc, IH.
  assert (Hex : existsb (has_uri x) (map (latest l) (keep_first l))
                = existsb (has_uri x) l).
  { now rewrite existsb_latest, existsb_keep_first. }
  destruct (existsb (has_uri x) l) eqn:Ex.
  - rewrite put_present; [| |exact Hex].
    + rewrite map_map. apply map_ext. intros y.
      rewrite latest_snoc. unfold has_uri. now rewrite latest_uri.
    + rewrite map_map.
      rewrite (map_ext _ uri (fun y => latest_uri l y)).
      apply keep_first_NoDup.
  - rewrite put_fresh by exact Hex.
    rewrite map_app. simpl. f_equal.
    + apply map_ext_in. intros y Hy. rewrite latest_snoc.
      rewrite <- existsb_keep_first in Ex.
      destruct (has_uri y x) eqn:E; [|reflexivity].
      exfalso.
      assert (existsb (has_uri x) (keep_first l) = true); [|congruence].
      apply existsb_exists. exists y. split; [assumption|].
      unfold has_uri in *. now rewrite key_eqb_sym.
    + rewrite latest_snoc. unfold has_uri. now rewrite key_eqb_refl.
Qed.

Lemma uniqueSources_incl l y : In y (uniqueSources l) -> In y l.
Proof.
  rewrite uniqueSources_latest. intros H. apply in_map_iff in H.
  destruct H as [z [E Hz]]. subst y.
  apply latest_In. now apply keep_first_incl.
Qed.

Lemma uniqueSources_uris l :
  map uri (uniqueSources l) = map uri (keep_first l).
Proof.
  rewrite uniqueSources_latest, map_map. apply map_ext. apply latest_uri.
Qed.

Lemma keep_first_covers l y : In y l -> In (uri y) (map uri (keep_first l)).
Proof.
  intros H.
  assert (E : existsb (has_uri y) (keep_first l) = true).
  { rewrite existsb_keep_first. apply existsb_exists. exists y.
    split; [assumption | apply key_eqb_refl]. }
  apply existsb_exists in E. destruct E as [z [Hz E]].
  apply in_map_iff. exists z. split; [|assumption].
  unfold has_uri in E. now destruct (key_eqb_spec (uri z) (uri y)).
Qed.

(** What [generateStudyGuide] returns on a response: its text, and the
    grounding chunks post-processed. *)
Lemma generateStudyGuide_fulfilled (response : Response) :
  generateStudyGuide (Some response)
  = Fulfilled (text response,
               postprocess (map of_chunk (groundingChunks response))).
Proof. reflexivity. Qed.

(** C1, as stated: the post-processing would be [keep_first] after the
    filter.  It is not: of two candidates with one [uri], the entry returned
    carries the title of the second. *)
Lemma postprocess_not_keep_first :
  let candidates :=
    [mkSource (Some "https://a.example") (Some "First title");
     mkSource (Some "https://a.example") (Some "Second title")] in
  postprocess candidates
  = [mkSource (Some "https://a.example") (Some "Second title")]
  /\ keep_first (filter has_uri_and_title candidates)
     = [mkSource (Some "https://a.example") (Some "First title")]
  /\ postprocess candidates <> keep_first (filter has_uri_and_title candidates).
Proof.
  cbv zeta. repeat split; try reflexivity.
  vm_compute. discriminate.
Qed.

(** C1, amended: the post-processing removes every candidate whose [uri] or
    [title] is missing (or empty), then keeps one entry per [uri], in the
    order in which the uris were first seen; the entry kept for a [uri] is
    the last candidate that has it, standing where the first one stood. *)
Theorem postprocess_first_position_last_entry (candidates : list Source) :
  let kept := filter has_uri_and_title candidates in
  postprocess candidates = map (latest kept) (keep_first kept)
  /\ map uri (postprocess candidates) = map uri (keep_first kept)
  /\ NoDup (map uri (postprocess candidates))
  /\ (forall s, In s (postprocess candidates) ->
        In s candidates /\ has_uri_and_title s = true)
  /\ (forall c, In c candidates -> has_uri_and_title c = true ->
        In (uri c) (map uri (postprocess candidates))).
Proof.
  intros kept. unfold postprocess. fold kept.
  split; [apply uniqueSources_latest|].
  split; [apply uniqueSources_uris|].
  split; [rewrite uniqueSources_uris; apply keep_first_NoDup|].
  split.
  - intros s H. apply uniqueSources_incl in H. unfold kept in H.
    now apply filter_In in H.
  - intros c Hc Hk. rewrite uniqueSources_uris. apply keep_first_covers.
    unfold kept. now apply filter_In.
Qed.

Lemma postprocess_first_position_last_entry_witness :
  let candidates :=
    [mkSource (Some "https://a.example") (Some "A, first");
     mkSource None (Some "no uri");
     mkSource (Some "https://b.example") (Some "B");
     mkSource (Some "https://c.example") None;
     mkSource (Some "https://a.example") (Some "A, second")] in
  postprocess candidates
  = [mkSource (Some "https://a.example") (Some "A, second");
     mkSource (Some "https://b.example") (Some "B")]
  /\ In (Some "https://b.example") (map uri (postprocess candidates)).
Proof.
  intros candidates.
  destruct (postprocess_first_position_last_entry candidates)
    as [E [_ [_ [_ C]]]].
  split.
  - rewrite E. vm_compute. reflexivity.
  - apply (C (mkSource (Some "https://b.example") (Some "B")));
      [right; right; left; reflexivity | reflexivity].
Defined.

(** ** The handlers, field by field *)

Lemma catch_eq (err : Thrown) (s : State) :
  catch err s
  = mkState ERROR (Some (errorMessage err)) (topic s) (studyGuide s)
      (sources s) (keyPoints s) (summary s) (questionsAsked s)
      (currentQuestion s) (userAnswer s) (feedback s) (score s) (history s).
Proof. reflexivity. Qed.

Lemma resume_rejected (k : Awaiting) (api : option Response) (err : Thrown)
    (s : State) :
  rejection k api = Some err -> resume k api s = catch err s.
Proof.
  destruct k; cbn -[catch].
  - destruct (generateStudyGuide api) as [[g l]|e]; [discriminate|].
    now intros [= ->].
  - destruct (generateQuizQuestion api); [discriminate|]. now intros [= ->].
  - destruct (evaluateAnswer api); [discriminate|]. now intros [= ->].
  - destruct (generateKeyPoints api); [discriminate|]. now intros [= ->].
  - destruct (generateSummary api); [discriminate|]. now intros [= ->].
Qed.

Lemma handleTopicSubmit_eq (s : State) :
  truthy (trim (topic s)) = true ->
  handleTopicSubmit s s
  = (mkState GENERATING_GUIDE None (topic s) "" [] "" "" [] "" "" None 0
       (history s),
     Some (mkCall (GenerateStudyGuide (topic s))
             (TopicSubmitted (topic s) (history s)))).
Proof. intros T. unfold handleTopicSubmit. rewrite T. reflexivity. Qed.

Lemma handleTopicSubmit_blank (s : State) :
  trim (topic s) = "" -> handleTopicSubmit s s = (s, None).
Proof. intros B. unfold handleTopicSubmit. rewrite B. reflexivity. Qed.

Lemma TopicSubmitted_fulfilled (t : string) (h : list HistoryItem.t)
    (response : Response) (s : State) :
  resume (TopicSubmitted t h) (Some response) s
  = let found := postprocess (map of_chunk (groundingChunks response)) in
    mkState STUDYING (error s) (topic s) (text response) found (keyPoints s)
      (summary s) (questionsAsked s) (currentQuestion s) (userAnswer s)
      (feedback s) (score s)
      (if existsb (same_topic t) h then history s
       else HistoryItem.make t (text response) found :: h).
Proof.
  cbv zeta. unfold resume, generateStudyGuide, handleTopicSubmit_settled.
  fold (postprocess (map of_chunk (groundingChunks response))).
  destruct (existsb (same_topic t) h); reflexivity.
Qed.

(** ** Renders *)

Lemma rerender_same (w : World) (s' : State) (calls : list Call) :
  history s' = history (state w) ->
  rerender w s' calls = mkWorld s' calls (storage w).
Proof.
  intros E. unfold rerender.
  destruct (list_eq_dec _ _ _) as [_|Ne]; [reflexivity | now elim Ne].
Qed.

Lemma nth_error_snoc (A : Type) (l : list A) (x : A) :
  nth_error (l ++ [x]) (List.length l) = Some x.
Proof.
  rewrite nth_error_app2 by lia. now rewrite Nat.sub_diag.
Qed.

(** ** Quiz scoring *)

(** C3: when the evaluation of a submitted answer succeeds with feedback
    [fb], the score goes up by exactly one if [evaluation fb] is the string
    "Correct" and is left as it was otherwise; submitting does not touch the
    score either. *)
Theorem score_incremented_iff_Correct
    (s : State) (fb : EvaluationFeedback) (text : string) (chunks : list Chunk) :
  let s' := resume AnswerSubmitted (Some (mkResponse text (Some fb) chunks)) s in
  (score s' = score s + 1 <-> evaluation fb = "Correct")
  /\ (score s' = score s <-> evaluation fb <> "Correct")
  /\ feedback s' = Some fb
  /\ appState s' = SHOWING_FEEDBACK
  /\ score (fst (handleAnswerSubmit s s)) = score s.
Proof.
  cbn -[String.eqb]. unfold handleAnswerSubmit.
  destruct (String.eqb_spec (evaluation fb) "Correct") as [E|N]; cbn.
  - repeat split; try tauto; try lia.
    destruct (negb _); reflexivity.
  - repeat split; try tauto; try lia.
    destruct (negb _); reflexivity.
Qed.

(** C10: when [evaluateAnswer] fails, the handler leaves behind the state
    it started from with only the error message and the Error state set:
    score, questions asked, current question, feedback, study guide and
    history (and every other field) are as they were. *)
Theorem failed_evaluation_changes_only_error
    (s : State) (api : option Response) (err : Thrown) :
  evaluateAnswer api = Rejected err ->
  truthy (trim (userAnswer s)) = true ->
  then_settled (handleAnswerSubmit s s) api
  = mkState ERROR (Some (errorMessage err)) (topic s) (studyGuide s)
      (sources s) (keyPoints s) (summary s) (questionsAsked s)
      (currentQuestion s) (userAnswer s) (feedback s) (score s) (history s).
Proof.
  intros R T. unfold then_settled, handleAnswerSubmit. rewrite T. cbn.
  rewrite R. reflexivity.
Qed.

(** ** History selection *)

(** C9: selecting a history entry leaves the stored topic, guide and sources
    of the entry on display in the Studying state, everything else but the
    history back at its initial value, and makes no Content Service call. *)
Theorem select_history_item (w : World) (index : nat) (item : HistoryItem.t) :
  nth_error (history (state w)) index = Some item ->
  offered (state w) (SelectHistoryItem index) = true ->
  handleSelectHistoryItem item (state w)
  = mkState STUDYING None (HistoryItem.topic item) (HistoryItem.guide item)
      (HistoryItem.sources item) "" "" [] "" "" None 0 (history (state w))
  /\ step w (Do (SelectHistoryItem index))
     = Some (mkWorld (handleSelectHistoryItem item (state w)) (inflight w)
               (storage w)).
Proof.
  intros N O. split; [reflexivity|].
  unfold step. rewrite O. cbn [handle]. rewrite N.
  rewrite rerender_same by reflexivity.
  now rewrite app_nil_r.
Qed.

(** ** Topic submission *)

(** C6: in the Initial state, submitting a topic that is not blank moves to
    GeneratingGuide with one request for a guide in flight; when that
    request succeeds the state becomes Studying (with the guide and the
    post-processed sources), when it fails it becomes Error.  Submitting a
    topic that is blank changes nothing. *)
Theorem topic_submit_transitions (w : World) :
  appState (state w) = INITIAL ->
  (truthy (trim (topic (state w))) = true ->
   exists w1,
     step w (Do TopicSubmit) = Some w1
     /\ appState (state w1) = GENERATING_GUIDE
     /\ inflight w1
        = inflight w
          ++ [mkCall (GenerateStudyGuide (topic (state w)))
                (TopicSubmitted (topic (state w)) (history (state w)))]
     /\ (forall response, exists w2,
           step w1 (Settle (List.length (inflight w)) (Some response)) = Some w2
           /\ appState (state w2) = STUDYING
           /\ studyGuide (state w2) = text response
           /\ sources (state w2)
              = postprocess (map of_chunk (groundingChunks response)))
     /\ (exists w2,
           step w1 (Settle (List.length (inflight w)) None) = Some w2
           /\ appState (state w2) = ERROR
           /\ error (state w2)
              = Some "Failed to generate study guide. Please try again."))
  /\ (trim (topic (state w)) = "" -> step w (Do TopicSubmit) = Some w).
Proof.
  intros I. split.
  - intros T. unfold step, offered. rewrite I. cbn [handle].
    rewrite (handleTopicSubmit_eq _ T).
    rewrite rerender_same by reflexivity.
    eexists. split; [reflexivity|]. cbn [state inflight appState].
    split; [reflexivity|]. split; [reflexivity|]. split.
    + intros response. unfold step. cbn [state inflight].
      rewrite nth_error_snoc. cbn [awaiting].
      rewrite TopicSubmitted_fulfilled. eexists. split; [reflexivity|].
      unfold rerender. cbn [state appState studyGuide sources].
      repeat split.
    + unfold step. cbn [state inflight]. rewrite nth_error_snoc.
      cbn [awaiting].
      rewrite (@resume_rejected _ None
                 (Error "Failed to generate study guide. Please try again."))
        by reflexivity.
      rewrite catch_eq. eexists. split; [reflexivity|].
      unfold rerender. cbn [state appState error errorMessage].
      split; reflexivity.
  - intros B. unfold step, offered. rewrite I. cbn [handle].
    rewrite (handleTopicSubmit_blank _ B).
    rewrite rerender_same by reflexivity. rewrite app_nil_r.
    now destruct w.
Qed.

(** ** Key points and summary *)

Lemma truthy_true s : s <> "" -> truthy s = true.
Proof.
  intros N. unfold truthy. now destruct (String.eqb_spec s "").
Qed.

Lemma handleGetKeyPoints_shown (s : State) :
  truthy (keyPoints s) = true ->
  handleGetKeyPoints s s = (setKeyPoints "" s, None).
Proof. intros T. unfold handleGetKeyPoints. now rewrite T. Qed.

Lemma handleGetKeyPoints_hidden (s : State) :
  keyPoints s = "" ->
  handleGetKeyPoints s s
  = (setAppState GENERATING_KEY_POINTS (setSummary "" s),
     Some (mkCall (GenerateKeyPoints (studyGuide s)) KeyPointsRequested)).
Proof. intros K. unfold handleGetKeyPoints. now rewrite K. Qed.

Lemma handleGetSummary_shown (s : State) :
  truthy (summary s) = true ->
  handleGetSummary s s = (setSummary "" s, None).
Proof. intros T. unfold handleGetSummary. now rewrite T. Qed.

Lemma handleGetSummary_hidden (s : State) :
  summary s = "" ->
  handleGetSummary s s
  = (setAppState GENERATING_SUMMARY (setKeyPoints "" s),
     Some (mkCall (GenerateSummary (studyGuide s)) SummaryRequested)).
Proof. intros K. unfold handleGetSummary. now rewrite K. Qed.

Lemma KeyPointsRequested_fulfilled (response : Response) (s : State) :
  resume KeyPointsRequested (Some response) s
  = setAppState STUDYING (setKeyPoints (text response) s).
Proof. reflexivity. Qed.

Lemma SummaryRequested_fulfilled (response : Response) (s : State) :
  resume SummaryRequested (Some response) s
  = setAppState STUDYING (setSummary (text response) s).
Proof. reflexivity. Qed.

(** C5, amended: a handler that finds its text populated clears it and makes
    no call.  From Studying with the text not shown, the first toggle clears
    the other text, calls the service and shows the text returned; when that
    text is not empty the second toggle hides it again with no call, which
    leaves the state one started from with the other text cleared: the
    original state when the other text was not on display. *)
Theorem toggle_twice (s : State) (response : Response) :
  appState s = STUDYING -> text response <> "" ->
  (keyPoints s <> "" -> handleGetKeyPoints s s = (setKeyPoints "" s, None))
  /\ (summary s <> "" -> handleGetSummary s s = (setSummary "" s, None))
  /\ (keyPoints s = "" ->
      let s1 := toggleKeyPoints s (Some response) in
      snd (handleGetKeyPoints s s)
      = Some (mkCall (GenerateKeyPoints (studyGuide s)) KeyPointsRequested)
      /\ s1 = setKeyPoints (text response) (setSummary "" s)
      /\ handleGetKeyPoints s1 s1 = (setSummary "" s, None)
      /\ (summary s = "" -> fst (handleGetKeyPoints s1 s1) = s))
  /\ (summary s = "" ->
      let s1 := toggleSummary s (Some response) in
      snd (handleGetSummary s s)
      = Some (mkCall (GenerateSummary (studyGuide s)) SummaryRequested)
      /\ s1 = setSummary (text response) (setKeyPoints "" s)
      /\ handleGetSummary s1 s1 = (setKeyPoints "" s, None)
      /\ (keyPoints s = "" -> fst (handleGetSummary s1 s1) = s)).
Proof.
  intros St T. apply truthy_true in T.
  split; [|split; [|split]].
  - intros K. apply handleGetKeyPoints_shown. now apply truthy_true.
  - intros K. apply handleGetSummary_shown. now apply truthy_true.
  - intros K. cbv zeta. unfold toggleKeyPoints, then_settled.
    rewrite (handleGetKeyPoints_hidden _ K). cbn [fst snd awaiting].
    rewrite KeyPointsRequested_fulfilled.
    assert (E : setAppState STUDYING
                  (setKeyPoints (text response)
                     (setAppState GENERATING_KEY_POINTS (setSummary "" s)))
                = setKeyPoints (text response) (setSummary "" s)).
    { destruct s; cbn in St |- *. now subst. }
    rewrite E. split; [reflexivity|]. split; [reflexivity|].
    rewrite handleGetKeyPoints_shown by exact T.
    assert (E' : setKeyPoints "" (setKeyPoints (text response) (setSummary "" s))
                 = setSummary "" s).
    { destruct s; cbn in K |- *. now subst. }
    rewrite E'. split; [reflexivity|].
    cbn [fst]. intros S. destruct s; cbn in S |- *. now subst.
  - intros K. cbv zeta. unfold toggleSummary, then_settled.
    rewrite (handleGetSummary_hidden _ K). cbn [fst snd awaiting].
    rewrite SummaryRequested_fulfilled.
    assert (E : setAppState STUDYING
                  (setSummary (text response)
                     (setAppState GENERATING_SUMMARY (setKeyPoints "" s)))
                = setSummary (text response) (setKeyPoints "" s)).
    { destruct s; cbn in St |- *. now subst. }
    rewrite E. split; [reflexivity|]. split; [reflexivity|].
    rewrite handleGetSummary_shown by exact T.
    assert (E' : setSummary "" (setSummary (text response) (setKeyPoints "" s))
                 = setKeyPoints "" s).
    { destruct s; cbn in K |- *. now subst. }
    rewrite E'. split; [reflexivity|].
    cbn [fst]. intros S. destruct s; cbn in S |- *. now subst.
Qed.

(** ** History *)

Lemma same_topic_lower (t t' : string) (item : HistoryItem.t) :
  toLowerCase t' = toLowerCase t -> same_topic t' item = same_topic t item.
Proof. unfold same_topic. now intros ->. Qed.

Lemma existsb_same_topic_lower (t t' : string) (h : list HistoryItem.t) :
  toLowerCase t' = toLowerCase t ->
  existsb (same_topic t') h = existsb (same_topic t) h.
Proof.
  intros E. induction h as [|a h IH]; simpl; [reflexivity|].
  now rewrite IH, (same_topic_lower _ _ a E).
Qed.

Lemma same_topic_refl (t g : string) (l : list Source) :
  same_topic t (HistoryItem.make t g l) = true.
Proof. unfold same_topic. apply String.eqb_refl. Qed.

Lemma filter_none (A : Type) (p : A -> bool) (l : list A) :
  existsb p l = false -> filter p l = [].
Proof.
  induction l as [|a l IH]; simpl; [reflexivity|].
  intros H. apply orb_false_elim in H. destruct H as [Ha Hl].
  rewrite Ha. now apply IH.
Qed.

(** What a submission that succeeds leaves in the history. *)
Lemma submitTopic_history (s : State) (response : Response) :
  truthy (trim (topic s)) = true ->
  history (submitTopic s (Some response))
  = if existsb (same_topic (topic s)) (history s) then history s
    else HistoryItem.make (topic s) (text response)
           (postprocess (map of_chunk (groundingChunks response)))
         :: history s.
Proof.
  intros T. unfold submitTopic, then_settled.
  rewrite (handleTopicSubmit_eq _ T). cbn [fst snd awaiting].
  rewrite TopicSubmitted_fulfilled. reflexivity.
Qed.

Lemma submitTopic_failed (s : State) :
  truthy (trim (topic s)) = true -> history (submitTopic s None) = history s.
Proof.
  intros T. unfold submitTopic, then_settled.
  rewrite (handleTopicSubmit_eq _ T). reflexivity.
Qed.

(** No handler but the topic submission writes the history, and no
    settlement but that of a guide request. *)
Lemma handle_history (a : Action) (s : State) :
  history (fst (handle a s)) = history s.
Proof.
  destruct a; cbn [handle fst]; try reflexivity.
  - unfold handleTopicSubmit. now destruct (negb _).
  - now destruct (nth_error _ _).
  - unfold handleStartQuiz, fetchNextQuestion. now destruct (Nat.leb _ _).
  - unfold handleGetSummary. now destruct (truthy _).
  - unfold handleGetKeyPoints. now destruct (truthy _).
  - unfold handleAnswerSubmit. now destruct (negb _).
  - unfold fetchNextQuestion. now destruct (Nat.leb _ _).
Qed.

Lemma resume_history (k : Awaiting) (api : option Response) (s : State) :
  match k with
  | TopicSubmitted topic h =>
      history (resume k api s) = history s
      \/ exists guide sources,
           existsb (same_topic topic) h = false
           /\ history (resume k api s)
              = HistoryItem.make topic guide sources :: h
  | _ => history (resume k api s) = history s
  end.
Proof.
  destruct k.
  - destruct api as [response|]; [|now left].
    rewrite TopicSubmitted_fulfilled. cbv zeta. cbn [history].
    destruct (existsb _ _) eqn:E; [now left|]. right. eauto.
  - now destruct api.
  - destruct api as [response|]; [|reflexivity].
    unfold resume, evaluateAnswer.
    destruct (json response) as [fb|]; [|reflexivity].
    unfold handleAnswerSubmit_settled.
    now destruct (String.eqb _ _).
  - now destruct api.
  - now destruct api.
Qed.

(** The history when the call of a submission settles before anything else
    happens: a guide generated for a topic is put at the head of the history
    only when no entry has that topic up to letter case, and the entries
    already there stay as they are, in place.  Submitting the topic again,
    in any letter case, leaves the history as the first submission left it:
    one entry for the topic, with the guide and sources of the first
    submission. *)
Theorem history_add_idempotent
    (s s' : State) (first second : Response) (outcome : option Response) :
  truthy (trim (topic s)) = true ->
  truthy (trim (topic s')) = true ->
  toLowerCase (topic s') = toLowerCase (topic s) ->
  history s' = history (submitTopic s (Some first)) ->
  let added :=
    HistoryItem.make (topic s) (text first)
      (postprocess (map of_chunk (groundingChunks first))) in
  (existsb (same_topic (topic s)) (history s) = false ->
   history (submitTopic s (Some first)) = added :: history s
   /\ filter (same_topic (topic s')) (history (submitTopic s' (Some second)))
      = [added])
  /\ (existsb (same_topic (topic s)) (history s) = true ->
      history (submitTopic s (Some first)) = history s)
  /\ history (submitTopic s' (Some second)) = history (submitTopic s (Some first))
  /\ (exists new, history (submitTopic s outcome) = new ++ history s).
Proof.
  intros T T' L H added.
  pose proof (submitTopic_history s first T) as H1. fold added in H1.
  pose proof (submitTopic_history s' second T') as H2.
  rewrite (existsb_same_topic_lower _ _ _ L), H in H2.
  destruct (existsb (same_topic (topic s)) (history s)) eqn:E.
  - rewrite H1 in *. rewrite E in H2.
    split; [discriminate|]. split; [reflexivity|]. split; [exact H2|].
    destruct outcome as [r|].
    + exists []. rewrite (submitTopic_history s r T), E. reflexivity.
    + exists []. now rewrite submitTopic_failed.
  - rewrite H1 in *.
    assert (E2 : existsb (same_topic (topic s)) (added :: history s) = true).
    { simpl. unfold added at 1. now rewrite same_topic_refl. }
    rewrite E2 in H2.
    split; [|split; [discriminate|split; [exact H2|]]].
    + intros _. split; [reflexivity|].
      rewrite H2. simpl.
      rewrite (same_topic_lower _ _ _ L). unfold added at 1.
      rewrite same_topic_refl. f_equal.
      apply filter_none.
      now rewrite (existsb_same_topic_lower _ _ _ L).
    + destruct outcome as [r|].
      * eexists [_]. rewrite (submitTopic_history s r T), E. reflexivity.
      * exists []. now rewrite submitTopic_failed.
Qed.

(** ** Failures *)

(** Failures: a Content Service call that fails, whichever it is and
    whatever the state it finds, leaves the application in the Error state with the
    message of the failure and with no call issued in its place; a reply to
    an evaluation request that does not parse is such a failure.  In the
    Error state the view offers one action, the return to Initial, after
    which nothing but the history is left of the state.  With no other call
    in flight, nothing else leaves the Error state. *)
Theorem failure_leads_to_error :
  (forall w i c api err,
      nth_error (inflight w) i = Some c ->
      rejection (awaiting c) api = Some err ->
      step w (Settle i api)
      = Some (mkWorld
                (setAppState ERROR (setError (Some (errorMessage err)) (state w)))
                (firstn i (inflight w) ++ skipn (S i) (inflight w))
                (storage w)))
  /\ (forall topic history,
         rejection (TopicSubmitted topic history) None
         = Some (Error "Failed to generate study guide. Please try again."))
  /\ rejection QuestionRequested None
     = Some (Error "Failed to generate a new question. Please try again.")
  /\ rejection AnswerSubmitted None
     = Some (Error "Failed to evaluate the answer. Please try again.")
  /\ (forall text chunks,
         rejection AnswerSubmitted (Some (mkResponse text None chunks))
         = Some (Error "Failed to evaluate the answer. Please try again."))
  /\ rejection KeyPointsRequested None
     = Some (Error "Failed to generate key points. Please try again.")
  /\ rejection SummaryRequested None
     = Some (Error "Failed to generate summary. Please try again.")
  /\ (forall w a w',
         appState (state w) = ERROR ->
         step w (Do a) = Some w' ->
         a = BackToNewTopic
         /\ w' = mkWorld (setHistory (history (state w)) initialState)
                   (inflight w) (storage w))
  /\ (forall w e w',
         appState (state w) = ERROR -> inflight w = [] ->
         step w e = Some w' -> e = Do BackToNewTopic).
Proof.
  split; [|do 6 (split; [reflexivity|]); split].
  - intros w i c api err N R. unfold step. rewrite N.
    rewrite (resume_rejected _ _ (state w) R).
    rewrite catch_eq.
    now rewrite rerender_same by reflexivity.
  - intros w a w' E S. unfold step, offered in S. rewrite E in S.
    destruct a; try discriminate.
    cbn [handle] in S.
    rewrite rerender_same in S by reflexivity.
    rewrite app_nil_r in S. injection S as <-. split; reflexivity.
  - intros w e w' E I S. destruct e as [a|i api].
    + unfold step, offered in S. rewrite E in S.
      destruct a; try discriminate. reflexivity.
    + unfold step in S. rewrite I in S. now destruct i.
Qed.

(** ** Persistence *)

Lemma rerender_flags (w : World) (s' : State) (calls : list Call) :
  setItem_throws (storage (rerender w s' calls)) = setItem_throws (storage w)
  /\ getItem_throws (storage (rerender w s' calls)) = getItem_throws (storage w).
Proof.
  unfold rerender, saveHistory. cbn [storage].
  destruct (list_eq_dec _ _ _); [split; reflexivity|].
  destruct (setItem_throws (storage w)) eqn:W; cbn; rewrite ?W; split; reflexivity.
Qed.

Lemma rerender_mirrored (w : World) (s' : State) (calls : list Call) :
  setItem_throws (storage w) = false -> mirrored w ->
  mirrored (rerender w s' calls).
Proof.
  unfold mirrored, rerender, saveHistory. cbn [storage state]. intros W M.
  destruct (list_eq_dec _ _ _) as [E|_]; [now rewrite E|].
  now rewrite W.
Qed.


(** A step is a render: of some state and some calls. *)
Lemma step_rerender (w w' : World) (e : Event) :
  step w e = Some w' -> exists s' calls, w' = rerender w s' calls.
Proof.
  unfold step. destruct e as [a|i api].
  - destruct (offered _ _); [|discriminate].
    destruct (handle a (state w)) as [s' call]. intros [= <-]. eauto.
  - destruct (nth_error _ _); [|discriminate]. intros [= <-]. eauto.
Qed.

Lemma run_invariant (P : World -> Prop) :
  (forall w s' calls, P w -> P (rerender w s' calls)) ->
  forall es w w', P w -> run w es = Some w' -> P w'.
Proof.
  intros Hstep es. induction es as [|e es IH]; simpl; intros w w' Pw R.
  - now injection R as <-.
  - destruct (step w e) as [w1|] eqn:S; [|discriminate].
    apply step_rerender in S. destruct S as [s' [calls ->]].
    eapply IH; [|exact R]. now apply Hstep.
Qed.


(** On what [Stored] describes, the start of the application is the mount of
    the component. *)
Lemma startup_Kept (stored : Stored) (reads writes : bool) :
  startup (Kept stored) reads
  = Running (state (mount (mkStorage stored reads writes))).
Proof.
  unfold startup, parsedHistory, mount, loadHistory.
  cbn [rerender state getItem_throws item].
  destruct reads; [reflexivity|]. destruct stored; reflexivity.
Qed.


(** ** The quiz *)

Lemma fetchNextQuestion_complete (render s : State) :
  quizLength <= List.length (questionsAsked render) ->
  fetchNextQuestion render s
  = (setAppState QUIZ_COMPLETE (setFeedback None (setUserAnswer "" s)), None).
Proof.
  intros L. unfold fetchNextQuestion.
  apply Nat.leb_le in L. now rewrite L.
Qed.

Lemma fetchNextQuestion_request (render s : State) :
  List.length (questionsAsked render) < quizLength ->
  fetchNextQuestion render s
  = (setAppState ASKING_QUESTION (setFeedback None (setUserAnswer "" s)),
     Some (mkCall (GenerateQuizQuestion (studyGuide render) (questionsAsked render))
             QuestionRequested)).
Proof.
  intros L. unfold fetchNextQuestion.
  apply Nat.leb_gt in L. now rewrite L.
Qed.

Lemma QuestionRequested_fulfilled (response : Response) (s : State) :
  resume QuestionRequested (Some response) s
  = setQuestionsAsked (questionsAsked s ++ [text response])
      (setCurrentQuestion (text response) s).
Proof. reflexivity. Qed.

(** Starting a quiz from a render that shows a finished one: the bound is
    tested on the questions of that render, so the new quiz is complete
    before a question was asked. *)
Lemma handleStartQuiz_after_a_quiz (s : State) :
  quizLength <= List.length (questionsAsked s) ->
  handleStartQuiz s s
  = (mkState QUIZ_COMPLETE (error s) (topic s) (studyGuide s) (sources s)
       (keyPoints s) (summary s) [] "" "" None 0 (history s),
     None).
Proof.
  intros L. unfold handleStartQuiz.
  rewrite (fetchNextQuestion_complete s _ L). reflexivity.
Qed.

(** When calls do not overlap, the bound holds: a request for a question is
    only made below it, and its result is the only thing appended. *)
Ltac other_call :=
  let c := fresh "c" in
  let E := fresh "E" in
  let A := fresh "A" in
  intros c E A; injection E as E; subst c; cbn in A; discriminate A.

Lemma handle_within_quiz (a : Action) (s s' : State) (call : option Call) :
  handle a s = (s', call) ->
  List.length (questionsAsked s) <= quizLength ->
  List.length (questionsAsked s') <= quizLength
  /\ forall c, call = Some c -> awaiting c = QuestionRequested ->
       List.length (questionsAsked s') < quizLength.
Proof.
  unfold quizLength.
  destruct a; cbn [handle]; intros H L.
  - injection H as <- <-. split; [exact L | discriminate].
  - unfold handleTopicSubmit in H. destruct (negb _); injection H as <- <-.
    + split; [exact L | discriminate].
    + split; [cbn; lia | other_call].
  - destruct (nth_error _ _); injection H as <- <-.
    + split; [cbn; lia | discriminate].
    + split; [exact L | discriminate].
  - injection H as <- <-. split; [exact L | discriminate].
  - injection H as <- <-. split; [exact L | discriminate].
  - injection H as <- <-. split; [cbn; lia | discriminate].
  - unfold handleStartQuiz, fetchNextQuestion in H.
    destruct (Nat.leb _ _); injection H as <- <-; split;
      try discriminate; cbn; intros; lia.
  - unfold handleGetSummary in H. destruct (truthy _); injection H as <- <-.
    + split; [exact L | discriminate].
    + split; [exact L | other_call].
  - unfold handleGetKeyPoints in H. destruct (truthy _); injection H as <- <-.
    + split; [exact L | discriminate].
    + split; [exact L | other_call].
  - injection H as <- <-. split; [exact L | discriminate].
  - unfold handleAnswerSubmit in H. destruct (negb _); injection H as <- <-.
    + split; [exact L | discriminate].
    + split; [exact L | other_call].
  - unfold fetchNextQuestion, quizLength in H.
    destruct (Nat.leb_spec 5 (List.length (questionsAsked s)));
      injection H as <- <-.
    + split; [exact L | discriminate].
    + split; [exact L | intros; cbn; lia].
Qed.

Lemma resume_within_quiz (k : Awaiting) (api : option Response) (s : State) :
  match k with
  | QuestionRequested =>
      List.length (questionsAsked (resume k api s))
      <= S (List.length (questionsAsked s))
  | _ => questionsAsked (resume k api s) = questionsAsked s
  end.
Proof.
  destruct k.
  - destruct api as [response|]; [|reflexivity].
    rewrite TopicSubmitted_fulfilled. reflexivity.
  - destruct api as [response|].
    + rewrite QuestionRequested_fulfilled. cbn [questionsAsked setQuestionsAsked].
      rewrite length_app. cbn. lia.
    + cbn. lia.
  - destruct api as [response|]; [|reflexivity].
    unfold resume, evaluateAnswer.
    destruct (json response) as [fb|]; [|reflexivity].
    unfold handleAnswerSubmit_settled. now destruct (String.eqb _ _).
  - now destruct api.
  - now destruct api.
Qed.

Lemma step_within_quiz (w w' : World) (e : Event) :
  waits w e = true -> step w e = Some w' -> within_quiz w -> within_quiz w'.
Proof.
  unfold within_quiz. intros W S [L [N Q]]. destruct e as [a|i api].
  - cbn [waits] in W. destruct (inflight w) as [|c0 r] eqn:E; [|discriminate].
    unfold step in S. destruct (offered _ _); [|discriminate].
    destruct (handle a (state w)) as [s' call] eqn:H.
    injection S as <-. cbn [rerender state inflight]. rewrite E.
    destruct (handle_within_quiz _ _ H L) as [L' Q'].
    split; [exact L'|]. split.
    + destruct call; cbn; lia.
    + intros c In A. destruct call as [c'|]; [|destruct In].
      destruct In as [<-|[]]. exact (Q' _ eq_refl A).
  - unfold step in S. destruct (nth_error (inflight w) i) as [c|] eqn:E;
      [|discriminate].
    injection S as <-. cbn [rerender state inflight].
    destruct (inflight w) as [|c0 [|c1 r]]; cbn in N; try lia.
    + now destruct i.
    + destruct i as [|i]; [|now destruct i].
      injection E as ->. cbn [firstn skipn app List.length In].
      pose proof (resume_within_quiz (awaiting c) api (state w)) as R.
      split; [|split; [lia | intros ? []]].
      destruct (awaiting c) eqn:A; try (rewrite R; exact L).
      specialize (Q c (or_introl eq_refl) A). unfold quizLength in *. lia.
Qed.

Lemma mount_within_quiz (disk : Storage) : within_quiz (mount disk).
Proof.
  unfold within_quiz, mount, loadHistory. cbn [rerender state inflight].
  assert (E : forall s, questionsAsked
                (if getItem_throws disk then s
                 else match item disk with
                      | Serialized h => setHistory h s
                      | _ => s
                      end) = questionsAsked s).
  { intros s. destruct (getItem_throws disk); [reflexivity|].
    now destruct (item disk). }
  rewrite E. cbn. unfold quizLength. repeat split; try lia; try tauto.
Qed.

Theorem quiz_bounded_when_calls_do_not_overlap
    (disk : Storage) (es : list Event) (w : World) :
  run_waiting (mount disk) es = Some w ->
  List.length (questionsAsked (state w)) <= quizLength.
Proof.
  intros R.
  enough (H : within_quiz w) by apply H.
  pose proof (mount_within_quiz disk) as I.
  revert R I. generalize (mount disk). clear disk.
  induction es as [|e es IH]; simpl; intros w0 R I.
  - now injection R as <-.
  - destruct (waits w0 e) eqn:W; [|discriminate].
    destruct (step w0 e) as [w1|] eqn:S; [|discriminate].
    apply (IH w1 R). now apply (step_within_quiz _ W S).
Qed.

(** * Further properties *)

(** ** Steps, taken apart *)

Lemma step_Do (w w' : World) (a : Action) :
  step w (Do a) = Some w' ->
  offered (state w) a = true
  /\ state w' = fst (handle a (state w))
  /\ inflight w'
     = inflight w
       ++ match snd (handle a (state w)) with Some c => [c] | None => [] end.
Proof.
  unfold step. destruct (offered (state w) a); [|discriminate].
  destruct (handle a (state w)) as [s' call]. intros [= <-].
  repeat split.
Qed.

Lemma step_Settle (w w' : World) (i : nat) (api : option Response) :
  step w (Settle i api) = Some w' ->
  exists c,
    nth_error (inflight w) i = Some c
    /\ state w' = resume (awaiting c) api (state w)
    /\ inflight w' = firstn i (inflight w) ++ skipn (S i) (inflight w).
Proof.
  unfold step. destruct (nth_error (inflight w) i) as [c|]; [|discriminate].
  intros [= <-]. exists c. repeat split.
Qed.

Lemma in_without (A : Type) (l : list A) (i : nat) (x : A) :
  In x (firstn i l ++ skipn (S i) l) -> In x l.
Proof.
  intros H. apply in_app_or in H. destruct H as [H|H].
  - rewrite <- (firstn_skipn i l). apply in_or_app. now left.
  - rewrite <- (firstn_skipn (S i) l). apply in_or_app. now right.
Qed.

Lemma run_induction (P : World -> Prop) :
  (forall w e w', step w e = Some w' -> P w -> P w') ->
  forall es w w', P w -> run w es = Some w' -> P w'.
Proof.
  intros Hstep es. induction es as [|e es IH]; simpl; intros w w' Pw R.
  - now injection R as <-.
  - destruct (step w e) as [w1|] eqn:S; [|discriminate].
    eapply IH; [|exact R]. eapply Hstep; eassumption.
Qed.

Lemma run_waiting_induction (P : World -> Prop) :
  (forall w e w', waits w e = true -> step w e = Some w' -> P w -> P w') ->
  forall es w w', P w -> run_waiting w es = Some w' -> P w'.
Proof.
  intros Hstep es. induction es as [|e es IH]; simpl; intros w w' Pw R.
  - now injection R as <-.
  - destruct (waits w e) eqn:W; [|discriminate].
    destruct (step w e) as [w1|] eqn:S; [|discriminate].
    eapply IH; [|exact R]. eapply Hstep; eassumption.
Qed.

(** A run in which the user waits is a run. *)
Lemma run_waiting_run (es : list Event) (w w' : World) :
  run_waiting w es = Some w' -> run w es = Some w'.
Proof.
  revert w. induction es as [|e es IH]; simpl; intros w R; [exact R|].
  destruct (waits w e); [|discriminate].
  destruct (step w e) as [w1|]; [|discriminate]. now apply IH.
Qed.

(** ** The state after mounting *)

Lemma loadHistory_fields (disk : Storage) (s : State) :
  loadHistory disk s = s
  \/ exists h, loadHistory disk s = setHistory h s.
Proof.
  unfold loadHistory. destruct (getItem_throws disk); [now left|].
  destruct (item disk); eauto.
Qed.

Lemma mount_state (disk : Storage) :
  state (mount disk) = setHistory (history (state (mount disk))) initialState.
Proof.
  unfold mount. cbn [rerender state].
  destruct (loadHistory_fields disk initialState) as [->|[h ->]]; reflexivity.
Qed.

(** ** The history, in every run *)

Lemma handle_snapshot (a : Action) (s : State) (c : Call)
    (t : string) (h : list HistoryItem.t) :
  snd (handle a s) = Some c -> awaiting c = TopicSubmitted t h ->
  h = history s.
Proof.
  destruct a; cbn [handle snd]; try discriminate.
  - unfold handleTopicSubmit. destruct (negb _); cbn [snd]; [discriminate|].
    intros [= <-]. cbn. now intros [= _ <-].
  - destruct (nth_error _ _); discriminate.
  - unfold handleStartQuiz, fetchNextQuestion.
    destruct (Nat.leb _ _); cbn [snd]; [discriminate|].
    intros [= <-]. discriminate.
  - unfold handleGetSummary. destruct (truthy _); cbn [snd]; [discriminate|].
    intros [= <-]. discriminate.
  - unfold handleGetKeyPoints. destruct (truthy _); cbn [snd]; [discriminate|].
    intros [= <-]. discriminate.
  - unfold handleAnswerSubmit. destruct (negb _); cbn [snd]; [discriminate|].
    intros [= <-]. discriminate.
  - unfold fetchNextQuestion. destruct (Nat.leb _ _); cbn [snd]; [discriminate|].
    intros [= <-]. discriminate.
Qed.

Lemma distinct_topics_cons (t g : string) (l : list Source)
    (h : list HistoryItem.t) :
  existsb (same_topic t) h = false -> distinct_topics h ->
  distinct_topics (HistoryItem.make t g l :: h).
Proof.
  unfold distinct_topics. intros E D. simpl. constructor; [|exact D].
  intros I. apply in_map_iff in I. destruct I as [item [L I]].
  assert (X : existsb (same_topic t) h = true); [|congruence].
  apply existsb_exists. exists item. split; [exact I|].
  unfold same_topic. rewrite L. apply String.eqb_refl.
Qed.

Lemma step_distinct_histories (w w' : World) (e : Event) :
  step w e = Some w' -> distinct_histories w -> distinct_histories w'.
Proof.
  unfold distinct_histories. intros S [D F]. destruct e as [a|i api].
  - apply step_Do in S. destruct S as [_ [-> ->]].
    rewrite handle_history. split; [exact D|].
    intros c t h I A. apply in_app_or in I. destruct I as [I|I].
    + exact (F c t h I A).
    + destruct (snd (handle a (state w))) as [c'|] eqn:C; [|destruct I].
      destruct I as [<-|[]]. now rewrite (handle_snapshot _ _ C A).
  - apply step_Settle in S. destruct S as [c [N [-> ->]]]. split.
    + pose proof (resume_history (awaiting c) api (state w)) as H.
      destruct (awaiting c) as [t h| | | |] eqn:A; try (now rewrite H).
      destruct H as [->|[g [l [E ->]]]]; [exact D|].
      apply distinct_topics_cons; [exact E|].
      apply (F c t h); [|exact A]. eapply nth_error_In; eassumption.
    + intros c' t h I A. apply in_without in I. exact (F c' t h I A).
Qed.

(** X2: in every run, also one in which calls overlap: the history never holds
    two entries for one topic, letter case aside, unless the history read
    from the storage did. *)
Theorem history_topics_stay_distinct
    (disk : Storage) (es : list Event) (w : World) :
  run (mount disk) es = Some w ->
  distinct_topics (history (state (mount disk))) ->
  distinct_topics (history (state w)).
Proof.
  intros R D.
  enough (H : distinct_histories w) by apply H.
  apply (@run_induction distinct_histories) with (es := es) (w := mount disk);
    [| |exact R].
  - intros w0 e w1 S I. exact (step_distinct_histories _ S I).
  - split; [exact D|]. intros c t h [].
Qed.

(** ** Persistence, there and back *)

Lemma saveHistory_writable (h : list HistoryItem.t) (disk : Storage) :
  setItem_throws disk = false ->
  saveHistory h disk
  = mkStorage (Serialized h) (getItem_throws disk) false.
Proof. intros W. unfold saveHistory. now rewrite W. Qed.

Lemma mount_serialized (disk : Storage) (h : list HistoryItem.t) :
  getItem_throws disk = false -> setItem_throws disk = false ->
  item disk = Serialized h ->
  mount disk = mkWorld (setHistory h initialState) [] disk.
Proof.
  intros G W I. unfold mount, loadHistory. rewrite G, I.
  unfold rerender. cbn [state history setHistory initialState].
  rewrite (saveHistory_writable _ _ W).
  destruct (list_eq_dec HistoryItem_eq_dec h []) as [->|_].
  - cbn [storage]. destruct disk; cbn in *. now subst.
  - cbn [storage]. rewrite saveHistory_writable by reflexivity.
    destruct disk; cbn in *. now subst.
Qed.

(** X3: closing the application after any run and opening it again, with a
    storage that can be read and written: it starts in the initial state
    with the history the run ended with, and leaves the storage as the run
    left it. *)
Theorem history_survives_restart
    (disk : Storage) (es : list Event) (w : World) :
  getItem_throws disk = false -> setItem_throws disk = false ->
  run (mount disk) es = Some w ->
  mount (storage w)
  = mkWorld (setHistory (history (state w)) initialState) [] (storage w).
Proof.
  intros G W R.
  assert (I : (getItem_throws (storage w) = false
               /\ setItem_throws (storage w) = false) /\ mirrored w).
  { apply (@run_invariant
             (fun w => (getItem_throws (storage w) = false
                        /\ setItem_throws (storage w) = false) /\ mirrored w))
      with (es := es) (w := mount disk); [| |exact R].
    - intros w0 s' calls [[G0 W0] M0].
      destruct (rerender_flags w0 s' calls) as [-> ->].
      split; [now split|]. now apply rerender_mirrored.
    - unfold mount.
      destruct (rerender_flags
                  (mkWorld initialState [] (saveHistory [] disk))
                  (loadHistory disk initialState) []) as [-> ->].
      cbn [storage]. rewrite (saveHistory_writable _ _ W). cbn.
      split; [now split|].
      apply rerender_mirrored; reflexivity. }
  destruct I as [[G' W'] M]. now apply mount_serialized.
Qed.

(** ** Source post-processing, once more *)

Lemma filter_all (A : Type) (p : A -> bool) (l : list A) :
  (forall x, In x l -> p x = true) -> filter p l = l.
Proof.
  induction l as [|a l IH]; simpl; intros H; [reflexivity|].
  rewrite (H a (or_introl eq_refl)). f_equal. apply IH.
  intros x I. apply H. now right.
Qed.

Lemma has_uri_absent (x : Source) (l : list Source) :
  ~ In (uri x) (map uri l) -> existsb (has_uri x) l = false.
Proof.
  intros N. destruct (existsb (has_uri x) l) eqn:E; [|reflexivity].
  apply existsb_exists in E. destruct E as [y [I E]]. elim N.
  unfold has_uri in E. destruct (key_eqb_spec (uri y) (uri x)) as [<-|];
    [|discriminate].
  now apply in_map.
Qed.

Lemma uniqueSources_distinct (l : list Source) :
  NoDup (map uri l) -> uniqueSources l = l.
Proof.
  induction l as [|x l IH] using rev_ind; [reflexivity|].
  rewrite map_app. intros D. simpl in D.
  apply NoDup_remove in D. rewrite app_nil_r in D. destruct D as [D N].
  rewrite uniqueSources_snoc, (IH D). apply put_fresh.
  now apply has_uri_absent.
Qed.

(** X4: candidates that all have a [uri] and a [title], with no [uri] twice,
    come out of the post-processing as they went in. *)
Theorem postprocess_leaves_distinct_sources (candidates : list Source) :
  (forall c, In c candidates -> has_uri_and_title c = true) ->
  NoDup (map uri candidates) ->
  postprocess candidates = candidates.
Proof.
  intros F D. unfold postprocess. rewrite (filter_all _ _ F).
  now apply uniqueSources_distinct.
Qed.

Lemma postprocess_leaves_distinct_sources_witness :
  postprocess [mkSource (Some "https://a.example") (Some "A");
               mkSource (Some "https://b.example") (Some "B")]
  = [mkSource (Some "https://a.example") (Some "A");
     mkSource (Some "https://b.example") (Some "B")].
Proof.
  apply postprocess_leaves_distinct_sources.
  - intros c [<-|[<-|[]]]; reflexivity.
  - repeat constructor; simpl; intuition discriminate.
Defined.

Lemma keep_first_length (l : list Source) :
  List.length (keep_first l) <= List.length l.
Proof.
  induction l as [|x l IH]; simpl; [lia|].
  pose proof (filter_length_le
                (fun y => negb (key_eqb (uri y) (uri x))) (keep_first l)).
  lia.
Qed.

(** X5: the post-processing does nothing to a list it produced, and never
    returns more sources than it was given. *)
Theorem postprocess_idempotent (candidates : list Source) :
  postprocess (postprocess candidates) = postprocess candidates
  /\ List.length (postprocess candidates) <= List.length candidates.
Proof.
  split.
  - unfold postprocess at 1. rewrite filter_all.
    + apply uniqueSources_distinct. unfold postprocess.
      rewrite uniqueSources_uris. apply keep_first_NoDup.
    + intros x I. unfold postprocess in I. apply uniqueSources_incl in I.
      now apply filter_In in I.
  - unfold postprocess.
    rewrite <- (length_map uri), uniqueSources_uris, length_map.
    pose proof (keep_first_length (filter has_uri_and_title candidates)).
    pose proof (filter_length_le has_uri_and_title candidates). lia.
Qed.

(** ** The client *)

(** X6: once [getAiClient] has returned a client, every later call returns that
    same client and leaves the module variable as it is: the constructor
    runs at most once with success.  When the constructor throws, the
    variable stays unset, so that the next call tries again. *)
Theorem getAiClient_reuses_client
    (GoogleGenAI : Type) (construct : option GoogleGenAI)
    (ai ai' : option GoogleGenAI) (client : GoogleGenAI) (n : nat) :
  getAiClient construct ai = (ai', Some client) ->
  ai' = Some client
  /\ (forall other, getAiClient_times other n ai'
                    = (ai', repeat (Some client) n))
  /\ (forall m, getAiClient_times (@None GoogleGenAI) m None
                = (None, repeat None m)).
Proof.
  intros G.
  assert (E : ai' = Some client).
  { unfold getAiClient in G. destruct ai as [c|].
    - now injection G as <- <-.
    - destruct construct as [c|]; [|discriminate]. now injection G as <- <-. }
  subst ai'. split; [reflexivity|]. split.
  - intros other. induction n as [|n IH]; [reflexivity|].
    simpl. now rewrite IH.
  - intros m. induction m as [|m IH]; [reflexivity|].
    simpl. now rewrite IH.
Qed.

Lemma getAiClient_reuses_client_witness :
  getAiClient_times (Some 2) 3 (Some 1) = (Some 1, [Some 1; Some 1; Some 1]).
Proof.
  exact (proj1 (proj2 (@getAiClient_reuses_client nat (Some 1) None (Some 1) 1 3
                         eq_refl)) (Some 2)).
Defined.

(** ** When the user waits for every call *)

Lemma truthy_false (s : string) : truthy s = false -> s = "".
Proof.
  unfold truthy. destruct (String.eqb_spec s ""); [trivial | discriminate].
Qed.

Ltac guards :=
  repeat match goal with
         | |- context [negb (truthy ?x)] => destruct (truthy x) eqn:?
         | |- context [truthy ?x] => destruct (truthy x) eqn:?
         | |- context [Nat.leb ?a ?b] => destruct (Nat.leb_spec a b)
         | |- context [nth_error ?l ?i] => destruct (nth_error l i)
         | |- context [existsb ?p ?l] => destruct (existsb p l)
         | |- context [json ?r] => destruct (json r)
         | |- context [String.eqb ?a ?b] => destruct (String.eqb a b)
         end.

Lemma handle_coherent (a : Action) (s : State) :
  offered s a = true -> coherent s [] ->
  coherent (fst (handle a s))
    match snd (handle a s) with Some c => [c] | None => [] end.
Proof.
  destruct s as [st er tp sg so kp su qa cq ua fb sc hi].
  unfold offered, coherent, quizLength. cbn [appState questionsAsked feedback history].
  destruct st, a; try discriminate; intros O C;
    cbn [handle]; unfold handleTopicSubmit, handleStartQuiz, fetchNextQuestion,
      handleGetSummary, handleGetKeyPoints, handleAnswerSubmit, quizLength;
    cbn [topic keyPoints summary questionsAsked userAnswer history];
    guards; cbn in *; try (intuition (try lia; try congruence); fail).
  all: try (apply truthy_false in Heqb); subst; cbn in *;
    try (intuition (try lia; try congruence); fail).
Qed.

Lemma resume_coherent (c : Call) (api : option Response) (s : State) :
  coherent s [c] -> coherent (resume (awaiting c) api s) [].
Proof.
  destruct s as [st er tp sg so kp su qa cq ua fb sc hi], c as [rq k].
  unfold coherent, quizLength.
  cbn [appState questionsAsked score keyPoints summary awaiting request
       studyGuide currentQuestion userAnswer topic history].
  intros C.
  destruct k, st; try tauto; destruct api as [response|];
    unfold resume, generateStudyGuide, generateQuizQuestion, evaluateAnswer,
      generateKeyPoints, generateSummary, handleTopicSubmit_settled,
      fetchNextQuestion_settled, handleAnswerSubmit_settled,
      handleGetKeyPoints_settled, handleGetSummary_settled;
    guards; cbn in *; rewrite ?length_app in *; cbn in *;
    intuition (try lia; try congruence).
Qed.

Lemma step_coherent (w w' : World) (e : Event) :
  waits w e = true -> step w e = Some w' ->
  coherent (state w) (inflight w) -> coherent (state w') (inflight w').
Proof.
  intros W S C. destruct e as [a|i api].
  - cbn [waits] in W. destruct (inflight w) as [|c0 r] eqn:E; [|discriminate].
    apply step_Do in S. destruct S as [O [-> ->]]. rewrite E. cbn [app].
    now apply handle_coherent.
  - apply step_Settle in S. destruct S as [c [N [-> ->]]].
    destruct (inflight w) as [|c0 [|c1 r]] eqn:E.
    + now destruct i.
    + destruct i as [|i]; [|now destruct i]. injection N as ->.
      cbn [firstn skipn app]. now apply resume_coherent.
    + unfold coherent in C. tauto.
Qed.

Lemma run_waiting_coherent (disk : Storage) (es : list Event) (w : World) :
  run_waiting (mount disk) es = Some w -> coherent (state w) (inflight w).
Proof.
  intros R.
  apply (@run_waiting_induction (fun w => coherent (state w) (inflight w)))
    with (es := es) (w := mount disk); [| |exact R].
  - intros w0 e w1 W S C. exact (step_coherent _ _ W S C).
  - rewrite mount_state. unfold mount, coherent, quizLength.
    cbn. repeat split; try lia. now left.
Qed.

(** X7: when the user waits for every call, the score never exceeds the number
    of questions asked, which never exceeds [quizLength]: the question
    screen counts from 1 to 5 and the final score is at most 5. *)
Theorem score_within_questions_asked
    (disk : Storage) (es : list Event) (w : World) :
  run_waiting (mount disk) es = Some w ->
  score (state w) <= List.length (questionsAsked (state w))
  /\ List.length (questionsAsked (state w)) <= quizLength
  /\ (forall n q, renderContent (state w) = QuestionView n q ->
        1 <= n <= quizLength)
  /\ (forall k, renderContent (state w) = QuizCompleteView k ->
        k <= quizLength).
Proof.
  intros R. pose proof (run_waiting_coherent _ _ R) as [S [L _]].
  split; [exact S|]. split; [exact L|].
  unfold renderContent, renderInitialView, renderLoadingView,
    renderFeedbackView, renderQuestionView.
  destruct (appState (state w)); split; try discriminate;
    try (destruct (feedback (state w)); discriminate).
  - destruct (Nat.ltb_spec 0 (List.length (questionsAsked (state w))));
      [|discriminate].
    intros n q [= <- _]. lia.
  - destruct (Nat.ltb _ _); discriminate.
  - intros k [= <-]. lia.
Qed.

(** X8: when the user waits for every call, at most one call is in flight, and
    the screen tells: a spinner is shown only while a call is in flight,
    and while a call is in flight the spinner is shown, but for the second
    and later questions of a quiz, which are fetched with the form of the
    question before still on the screen.  A spinner offers no action. *)
Theorem spinner_and_call_in_flight
    (disk : Storage) (es : list Event) (w : World) :
  run_waiting (mount disk) es = Some w ->
  List.length (inflight w) <= 1
  /\ (forall message, renderContent (state w) = LoadingView message ->
        exists c, inflight w = [c])
  /\ (forall c, inflight w = [c] ->
        (exists message, renderContent (state w) = LoadingView message)
        \/ (awaiting c = QuestionRequested
            /\ exists n q, renderContent (state w) = QuestionView n q))
  /\ (forall message a, renderContent (state w) = LoadingView message ->
        offered (state w) a = false).
Proof.
  intros R. pose proof (run_waiting_coherent _ _ R) as [S [L [_ C]]].
  unfold renderContent, renderInitialView, renderLoadingView,
    renderFeedbackView, renderQuestionView, offered.
  destruct (inflight w) as [|c [|c' r]]; [| |contradiction].
  - split; [cbn; lia|].
    destruct (appState (state w)); try contradiction;
      (split; [|split; [discriminate|]]);
      try discriminate;
      try (destruct (feedback (state w)); discriminate).
    + destruct (Nat.ltb_spec 0 (List.length (questionsAsked (state w))));
        [discriminate | lia].
    + destruct (Nat.ltb_spec 0 (List.length (questionsAsked (state w))));
        [discriminate | lia].
  - split; [cbn; lia|].
    destruct (awaiting c) eqn:A, (appState (state w)); try contradiction;
      (split; [eauto|]); (split; [intros ? [= <-]; rewrite A|]);
      try (left; eauto; fail); try (intros ? []; reflexivity).
    + destruct (Nat.ltb _ _); [right|left]; eauto.
    + destruct (Nat.ltb _ _); [discriminate|]. intros ? [] ?; reflexivity.
Qed.

(** X9: when the user waits for every call: on the study guide screen no quiz
    data is left over, so that "Start Quiz" starts a quiz that asks its
    first question, with no earlier question to avoid; and the Quiz Complete
    screen is reached with [quizLength] questions asked or with none. *)
Theorem quiz_starts_afresh_from_study_guide
    (disk : Storage) (es : list Event) (w : World) :
  run_waiting (mount disk) es = Some w ->
  (appState (state w) = STUDYING ->
   questionsAsked (state w) = [] /\ score (state w) = 0
   /\ exists w',
        step w (Do StartQuiz) = Some w'
        /\ appState (state w') = ASKING_QUESTION
        /\ inflight w'
           = [mkCall (GenerateQuizQuestion (studyGuide (state w)) [])
                QuestionRequested])
  /\ (appState (state w) = QUIZ_COMPLETE ->
      List.length (questionsAsked (state w)) = quizLength
      \/ questionsAsked (state w) = []).
Proof.
  intros R. pose proof (run_waiting_coherent _ _ R) as [S [L [_ C]]].
  split; intros A; rewrite A in C.
  - destruct (inflight w) as [|c [|c' r]] eqn:I.
    + rewrite C in S. cbn in S.
      split; [exact C|]. split; [lia|].
      unfold step, offered. rewrite A. cbn [handle].
      unfold handleStartQuiz.
      rewrite fetchNextQuestion_request by (rewrite C; cbn; unfold quizLength; lia).
      rewrite rerender_same by reflexivity.
      eexists. split; [reflexivity|]. rewrite I, C. split; reflexivity.
    + destruct (awaiting c); contradiction.
    + contradiction.
  - destruct (inflight w) as [|c [|c' r]].
    + exact C.
    + destruct (awaiting c); contradiction.
    + contradiction.
Qed.

(** X10: when the user waits for every call, the key points and the summary are
    never both on display. *)
Theorem key_points_and_summary_exclusive
    (disk : Storage) (es : list Event) (w : World) :
  run_waiting (mount disk) es = Some w ->
  keyPoints (state w) = "" \/ summary (state w) = "".
Proof.
  intros R. now pose proof (run_waiting_coherent _ _ R) as [_ [_ [X _]]].
Qed.

(** X11: when the user waits for every call, the call in flight was made from
    the data now in the state: the guide, the questions asked so far, the
    question and the answer on the screen, the topic and the history. *)
Theorem request_carries_current_data
    (disk : Storage) (es : list Event) (w : World) (c : Call) :
  run_waiting (mount disk) es = Some w ->
  In c (inflight w) ->
  let s := state w in
  match awaiting c with
  | TopicSubmitted t h =>
      request c = GenerateStudyGuide (topic s) /\ t = topic s /\ h = history s
  | QuestionRequested =>
      request c = GenerateQuizQuestion (studyGuide s) (questionsAsked s)
  | AnswerSubmitted =>
      request c = EvaluateAnswer (studyGuide s) (currentQuestion s) (userAnswer s)
  | KeyPointsRequested => request c = GenerateKeyPoints (studyGuide s)
  | SummaryRequested => request c = GenerateSummary (studyGuide s)
  end.
Proof.
  intros R I. pose proof (run_waiting_coherent _ _ R) as [_ [_ [_ C]]].
  destruct (inflight w) as [|c0 [|c1 r]]; [destruct I| |contradiction].
  destruct I as [<-|[]]. cbv zeta.
  destruct (awaiting c0), (appState (state w)); try contradiction; tauto.
Qed.

Lemma step_history_grows (w w' : World) (e : Event) :
  waits w e = true -> step w e = Some w' ->
  coherent (state w) (inflight w) ->
  exists new, history (state w') = new ++ history (state w).
Proof.
  intros W S C. destruct e as [a|i api].
  - apply step_Do in S. destruct S as [_ [-> _]].
    exists []. apply handle_history.
  - apply step_Settle in S. destruct S as [c [N [-> _]]].
    pose proof (resume_history (awaiting c) api (state w)) as H.
    destruct C as [_ [_ [_ C]]].
    destruct (inflight w) as [|c0 [|c1 r]]; [now destruct i| |contradiction].
    destruct i as [|i]; [|now destruct i]. injection N as ->.
    destruct (awaiting c) as [t h| | | |]; try (exists []; exact H).
    destruct H as [H|[g [l [_ H]]]]; [exists []; exact H|].
    destruct (appState (state w)); try contradiction.
    destruct C as [_ [_ [-> _]]]. eexists [_]. exact H.
Qed.

(** X12: when the user waits for every call, no step updates or removes an entry
    of the history: whatever was in it stays, in place, below what was
    added since. *)
Theorem history_only_grows
    (disk : Storage) (before after : list Event) (w w' : World) :
  run_waiting (mount disk) before = Some w ->
  run_waiting w after = Some w' ->
  exists new, history (state w') = new ++ history (state w).
Proof.
  intros R. pose proof (run_waiting_coherent _ _ R) as C. clear R.
  revert w C. induction after as [|e es IH]; simpl; intros w C R'.
  - injection R' as <-. now exists [].
  - destruct (waits w e) eqn:W; [|discriminate].
    destruct (step w e) as [w1|] eqn:S; [|discriminate].
    destruct (step_history_grows _ _ W S C) as [n1 E1].
    destruct (IH w1 (step_coherent _ _ W S C) R') as [n2 E2].
    exists (n2 ++ n1). now rewrite E2, E1, app_assoc.
Qed.

(** ** The feedback screen *)

(** X13: on the feedback screen the panel is green exactly when the answer
    scored, and the button says "Finish Quiz" exactly when pressing it ends
    the quiz without a call; when it says "Next Question", pressing it asks
    for one. *)
Theorem feedback_screen_matches_quiz
    (s : State) (fb : EvaluationFeedback) (text : string) (chunks : list Chunk) :
  let s' := resume AnswerSubmitted (Some (mkResponse text (Some fb) chunks)) s in
  exists tone finish,
    renderContent s' = FeedbackView tone finish
    /\ (tone = Green <-> score s' = score s + 1)
    /\ (finish = true ->
        handle NextQuestion s'
        = (setAppState QUIZ_COMPLETE (setFeedback None (setUserAnswer "" s')),
           None))
    /\ (finish = false ->
        handle NextQuestion s'
        = (setAppState ASKING_QUESTION (setFeedback None (setUserAnswer "" s')),
           Some (mkCall (GenerateQuizQuestion (studyGuide s') (questionsAsked s'))
                   QuestionRequested))).
Proof.
  cbv zeta. unfold resume, evaluateAnswer. cbn [json].
  unfold handleAnswerSubmit_settled.
  set (s' := queued _ s).
  assert (A : appState s' = SHOWING_FEEDBACK)
    by (unfold s'; destruct (String.eqb _ _); reflexivity).
  assert (F : feedback s' = Some fb)
    by (unfold s'; destruct (String.eqb _ _); reflexivity).
  assert (Sc : score s' = if String.eqb (evaluation fb) "Correct"
                          then score s + 1 else score s)
    by (unfold s'; destruct (String.eqb _ _); reflexivity).
  unfold renderContent, renderFeedbackView. rewrite A, F. cbv zeta.
  do 2 eexists. split; [reflexivity|]. rewrite Sc. split; [|split].
  - destruct (String.eqb (evaluation fb) "Correct").
    + split; reflexivity.
    + split; [|lia]. destruct (String.eqb _ _); discriminate.
  - intros L. cbn [handle]. apply fetchNextQuestion_complete.
    now apply Nat.leb_le.
  - intros L. cbn [handle]. apply fetchNextQuestion_request.
    now apply Nat.leb_gt.
Qed.

(** ** Runs, step by step *)

Lemma run_waiting_app (es es' : list Event) (w : World) :
  run_waiting w (es ++ es')
  = match run_waiting w es with
    | Some w' => run_waiting w' es'
    | None => None
    end.
Proof.
  revert w. induction es as [|e es IH]; simpl; intros w; [reflexivity|].
  destruct (waits w e); [|reflexivity].
  destruct (step w e); [apply IH | reflexivity].
Qed.

Lemma step_Do_eq (w : World) (a : Action) :
  offered (state w) a = true ->
  step w (Do a)
  = Some (mkWorld (fst (handle a (state w)))
            (inflight w
             ++ match snd (handle a (state w)) with
                | Some c => [c]
                | None => []
                end)
            (storage w)).
Proof.
  intros O. unfold step. rewrite O.
  destruct (handle a (state w)) as [s' call] eqn:H.
  rewrite rerender_same; [reflexivity|].
  change s' with (fst (s', call)). rewrite <- H. apply handle_history.
Qed.

Lemma step_Settle_eq (w : World) (i : nat) (api : option Response) (c : Call) :
  nth_error (inflight w) i = Some c ->
  history (resume (awaiting c) api (state w)) = history (state w) ->
  step w (Settle i api)
  = Some (mkWorld (resume (awaiting c) api (state w))
            (firstn i (inflight w) ++ skipn (S i) (inflight w))
            (storage w)).
Proof.
  intros N H. unfold step. rewrite N. now rewrite rerender_same.
Qed.

Lemma run_waiting_cons (w : World) (e : Event) (es : list Event) (w1 : World) :
  waits w e = true -> step w e = Some w1 ->
  run_waiting w (e :: es) = run_waiting w1 es.
Proof. intros W S. simpl. now rewrite W, S. Qed.

(** ** Reaching the history *)

(** X15: every entry of the history can be opened from the initial screen: the
    first five directly, the others through "View All History", which is
    on offer whenever there are more than five.  Either way the entry is on
    display in Studying afterwards, and no call was made. *)
Theorem every_history_entry_can_be_opened
    (w : World) (index : nat) (item : HistoryItem.t) :
  appState (state w) = INITIAL ->
  nth_error (history (state w)) index = Some item ->
  exists es w',
    (es = [Do (SelectHistoryItem index)]
     \/ es = [Do ViewAllHistory; Do (SelectHistoryItem index)])
    /\ run w es = Some w'
    /\ state w'
       = mkState STUDYING None (HistoryItem.topic item) (HistoryItem.guide item)
           (HistoryItem.sources item) "" "" [] "" "" None 0 (history (state w))
    /\ inflight w' = inflight w.
Proof.
  intros A N.
  assert (B : index < List.length (history (state w))).
  { apply nth_error_Some. congruence. }
  destruct (Nat.ltb_spec index 5) as [Lt|Ge].
  - exists [Do (SelectHistoryItem index)]. eexists. split; [now left|].
    cbn [run]. rewrite step_Do_eq.
    2:{ unfold offered. rewrite A. apply Nat.ltb_lt. rewrite length_firstn. lia. }
    cbn [handle]. rewrite N. cbn [fst snd state inflight].
    split; [reflexivity|]. split; [reflexivity|]. apply app_nil_r.
  - exists [Do ViewAllHistory; Do (SelectHistoryItem index)]. eexists.
    split; [now right|].
    cbn [run]. rewrite step_Do_eq.
    2:{ unfold offered. rewrite A. apply Nat.ltb_lt. lia. }
    cbn [handle fst snd]. rewrite step_Do_eq.
    2:{ unfold offered. cbn [state appState setAppState history].
        apply Nat.ltb_lt. exact B. }
    cbn [handle state history setAppState]. rewrite N.
    cbn [fst snd state inflight].
    split; [reflexivity|]. split; [reflexivity|]. now rewrite !app_nil_r.
Qed.

(** ** Strings *)


End App.

(** * Runs and examples

    The properties at concrete runs, on ASCII text, with the built-ins as
    they act on it. *)

#[global] Existing Instance asciiBuiltins.

Example score_examples :
  let scored evaluation :=
    score (resume AnswerSubmitted (evaluates evaluation) (setScore 2 initialState)) in
  scored "Correct" = 3 /\ scored "Partially Correct" = 2
  /\ scored "Incorrect" = 2 /\ scored "correct" = 2 /\ scored "Correct." = 2.
Proof. repeat split. Qed.

Lemma failed_evaluation_changes_only_error_witness :
  then_settled
    (handleAnswerSubmit (setUserAnswer "chlorophyll" initialState)
       (setUserAnswer "chlorophyll" initialState))
    (Some (mkResponse "not json" None []))
  = mkState ERROR (Some "Failed to evaluate the answer. Please try again.")
      "" "" [] "" "" [] "" "chlorophyll" None 0 [].
Proof.
  exact (@failed_evaluation_changes_only_error asciiBuiltins
           (setUserAnswer "chlorophyll" initialState)
           (Some (mkResponse "not json" None []))
           (Error "Failed to evaluate the answer. Please try again.")
           eq_refl eq_refl).
Defined.

Lemma select_history_item_witness :
  let item := HistoryItem.make "Photosynthesis" "guide" [] in
  let w := mkWorld (setHistory [item] initialState) [] emptyStorage in
  handleSelectHistoryItem item (state w)
  = mkState STUDYING None "Photosynthesis" "guide" [] "" "" [] "" "" None 0 [item]
  /\ step w (Do (SelectHistoryItem 0))
     = Some (mkWorld (handleSelectHistoryItem item (state w)) [] emptyStorage).
Proof.
  exact (@select_history_item asciiBuiltins
           (mkWorld (setHistory [HistoryItem.make "Photosynthesis" "guide" []]
                       initialState) [] emptyStorage)
           0 (HistoryItem.make "Photosynthesis" "guide" []) eq_refl eq_refl).
Defined.

Lemma topic_submit_transitions_witness :
  let w := mkWorld (setTopic "Photosynthesis" initialState) [] emptyStorage in
  (exists w1,
     step w (Do TopicSubmit) = Some w1
     /\ appState (state w1) = GENERATING_GUIDE
     /\ inflight w1
        = [mkCall (GenerateStudyGuide "Photosynthesis")
             (TopicSubmitted "Photosynthesis" [])]
     /\ (forall response, exists w2,
           step w1 (Settle 0 (Some response)) = Some w2
           /\ appState (state w2) = STUDYING
           /\ studyGuide (state w2) = text response
           /\ sources (state w2)
              = postprocess (map of_chunk (groundingChunks response)))
     /\ (exists w2,
           step w1 (Settle 0 None) = Some w2
           /\ appState (state w2) = ERROR
           /\ error (state w2)
              = Some "Failed to generate study guide. Please try again."))
  /\ step (mkWorld (setTopic "   " initialState) [] emptyStorage) (Do TopicSubmit)
     = Some (mkWorld (setTopic "   " initialState) [] emptyStorage).
Proof.
  split.
  - exact (proj1 (@topic_submit_transitions asciiBuiltins
                    (mkWorld (setTopic "Photosynthesis" initialState) []
                       emptyStorage) eq_refl) eq_refl).
  - exact (proj2 (@topic_submit_transitions asciiBuiltins
                    (mkWorld (setTopic "   " initialState) [] emptyStorage)
                    eq_refl) eq_refl).
Defined.

(** C5, as stated: from Studying, toggling the key points twice would give
    back the display one started from.  With the summary on display it does
    not: the first toggle hides the summary and the second does not bring it
    back. *)
Lemma toggling_loses_other_text :
  let s := queued [setStudyGuide "guide"; setSummary "In short";
                   setAppState STUDYING] initialState in
  let s1 := toggleKeyPoints s (replies "- a point") in
  let s2 := toggleKeyPoints s1 None in
  appState s = STUDYING /\ keyPoints s = ""
  /\ snd (handleGetKeyPoints s1 s1) = None
  /\ summary s = "In short" /\ summary s2 = ""
  /\ s2 <> s.
Proof. vm_compute. repeat split. discriminate. Qed.

(** The second toggle calls the service again when the first call came back
    with an empty text. *)
Example second_toggle_after_empty_reply :
  let s := queued [setStudyGuide "guide"; setAppState STUDYING] initialState in
  let s1 := toggleKeyPoints s (replies "") in
  snd (handleGetKeyPoints s1 s1)
  = Some (mkCall (GenerateKeyPoints "guide") KeyPointsRequested).
Proof. vm_compute. reflexivity. Qed.

Lemma toggle_twice_witness :
  let s := queued [setStudyGuide "guide"; setAppState STUDYING] initialState in
  let s1 := toggleKeyPoints s (replies "- a point") in
  snd (handleGetKeyPoints s s)
  = Some (mkCall (GenerateKeyPoints "guide") KeyPointsRequested)
  /\ s1 = setKeyPoints "- a point" (setSummary "" s)
  /\ handleGetKeyPoints s1 s1 = (setSummary "" s, None)
  /\ (summary s = "" -> fst (handleGetKeyPoints s1 s1) = s).
Proof.
  refine (proj1 (proj2 (proj2
    (@toggle_twice asciiBuiltins
       (queued [setStudyGuide "guide"; setAppState STUDYING] initialState)
       (mkResponse "- a point" None []) eq_refl _))) eq_refl).
  discriminate.
Defined.

Lemma history_add_idempotent_witness :
  let s := setTopic "Photosynthesis" initialState in
  let first := mkResponse "first guide" None [] in
  let second := mkResponse "second guide" None [] in
  let s' := setTopic "PHOTOsynthesis" (submitTopic s (Some first)) in
  history (submitTopic s (Some first))
  = [HistoryItem.make "Photosynthesis" "first guide" []]
  /\ history (submitTopic s' (Some second))
     = [HistoryItem.make "Photosynthesis" "first guide" []].
Proof.
  pose proof (@history_add_idempotent asciiBuiltins
    (setTopic "Photosynthesis" initialState)
    (setTopic "PHOTOsynthesis"
       (submitTopic (setTopic "Photosynthesis" initialState)
          (Some (mkResponse "first guide" None []))))
    (mkResponse "first guide" None []) (mkResponse "second guide" None [])
    None eq_refl eq_refl eq_refl eq_refl) as H.
  cbv zeta in H. destruct H as [H1 [_ [H3 _]]].
  specialize (H1 eq_refl). destruct H1 as [H1 _].
  split; [exact H1|]. rewrite H3. exact H1.
Defined.

(** C4, at the failing input: with "Photosynthesis" in the history, the
    topics "Mitosis" and "Meiosis" are submitted while calls are pending
    (see [twoGuidesInFlight]), so that both requests for a guide are in
    flight together; each has the history of the render it was submitted
    from, which holds "Photosynthesis" only.  When the first settles the
    history is "Mitosis", "Photosynthesis".  When the second settles the
    history, and what is stored, is "Meiosis", "Photosynthesis": the entry
    for "Mitosis" has been removed. *)
Example overlapping_submissions_drop_an_entry :
  let entry topic guide := HistoryItem.make topic guide [] in
  exists before after,
    run (mount emptyStorage) (removelast twoGuidesInFlight) = Some before
    /\ history (state before)
       = [entry "Mitosis" "guide on mitosis"; entry "Photosynthesis" "guide"]
    /\ inflight before
       = [mkCall (GenerateStudyGuide "Meiosis")
            (TopicSubmitted "Meiosis" [entry "Photosynthesis" "guide"])]
    /\ run (mount emptyStorage) twoGuidesInFlight = Some after
    /\ history (state after)
       = [entry "Meiosis" "guide on meiosis"; entry "Photosynthesis" "guide"]
    /\ item (storage after) = Serialized (history (state after)).
Proof.
  intros entry. do 2 eexists. split; [vm_compute; reflexivity|].
  split; [reflexivity|]. split; [reflexivity|].
  split; [vm_compute; reflexivity|]. split; reflexivity.
Qed.

(** C7, at the failing input: the first question is answered and the next
    one asked for; with that request pending the user answers the question
    on the screen once more.  The request for the question fails, and the
    application is in Error; then the evaluation comes back, and the
    application is on the feedback screen, though the user did nothing. *)
Example error_left_when_overlapping_call_settles :
  exists failed w,
    run (mount emptyStorage) (removelast evaluatedAfterFailure) = Some failed
    /\ appState (state failed) = ERROR
    /\ run (mount emptyStorage) evaluatedAfterFailure = Some w
    /\ appState (state w) = SHOWING_FEEDBACK.
Proof.
  do 2 eexists. split; [vm_compute; reflexivity|].
  split; [reflexivity|]. split; [vm_compute; reflexivity | reflexivity].
Qed.

Lemma failure_leads_to_error_witness :
  let w := mkWorld (queued [setStudyGuide "guide"; setScore 2;
                            setAppState EVALUATING_ANSWER] initialState)
             [mkCall (EvaluateAnswer "guide" "q" "a") AnswerSubmitted]
             emptyStorage in
  let failed :=
    mkWorld (queued [setStudyGuide "guide"; setScore 2;
                     setError (Some "Failed to evaluate the answer. Please try again.");
                     setAppState ERROR] initialState)
      [] emptyStorage in
  step w (Settle 0 (Some (mkResponse "not json" None []))) = Some failed
  /\ step failed (Do BackToNewTopic) = Some (mkWorld initialState [] emptyStorage)
  /\ mkWorld initialState [] emptyStorage
     = mkWorld (setHistory (history (state failed)) initialState)
         (inflight failed) (storage failed).
Proof.
  intros w failed.
  destruct failure_leads_to_error as [F [_ [_ [_ [_ [_ [_ [B _]]]]]]]].
  split; [|split].
  - exact (F w 0 _ (Some (mkResponse "not json" None [])) _ eq_refl eq_refl).
  - vm_compute. reflexivity.
  - exact (proj2 (B failed BackToNewTopic (mkWorld initialState [] emptyStorage)
                    eq_refl eq_refl)).
Defined.



(** C2, at the failing input: a topic is studied and a quiz of five
    questions is taken to its end, one call at a time; on the Quiz Complete
    screen the user presses "Try Again".  The application is in Quiz
    Complete again at once, with no question asked, no call made, and a
    score of 0. *)
Theorem try_again_completes_with_no_question :
  exists finished restarted,
    run (mount emptyStorage) wholeQuiz = Some finished
    /\ appState (state finished) = QUIZ_COMPLETE
    /\ questionsAsked (state finished) = ["q1"; "q2"; "q3"; "q4"; "q5"]
    /\ score (state finished) = 3
    /\ inflight finished = []
    /\ step finished (Do StartQuiz) = Some restarted
    /\ appState (state restarted) = QUIZ_COMPLETE
    /\ questionsAsked (state restarted) = []
    /\ score (state restarted) = 0
    /\ inflight restarted = [].
Proof.
  do 2 eexists.
  split; [vm_compute; reflexivity|].
  do 4 (split; [reflexivity|]).
  split; [vm_compute; reflexivity|].
  repeat split.
Qed.

(** With requests for a question overlapping, more than [quizLength]
    questions are asked in one quiz. *)
Example overlapping_requests_exceed_quizLength :
  exists w,
    run (mount emptyStorage) overlapping = Some w
    /\ questionsAsked (state w) = ["q1"; "q2"; "q3"; "q4"; "q5"; "q6"]
    /\ quizLength < List.length (questionsAsked (state w))
    /\ inflight w = [].
Proof.
  eexists. split; [vm_compute; reflexivity|].
  split; [reflexivity|]. split; [vm_compute; lia | reflexivity].
Qed.

Lemma history_topics_stay_distinct_witness :
  exists w,
    run (mount emptyStorage) studiedTwice = Some w
    /\ distinct_topics (history (state w)).
Proof.
  eexists. split; [vm_compute; reflexivity|].
  apply (@history_topics_stay_distinct asciiBuiltins emptyStorage studiedTwice).
  - vm_compute. reflexivity.
  - vm_compute. constructor.
Defined.

Lemma history_survives_restart_witness :
  exists w,
    run (mount emptyStorage) wholeQuiz = Some w
    /\ history (state (mount (storage w)))
       = [HistoryItem.make "Photosynthesis" "guide" []].
Proof.
  eexists. split; [vm_compute; reflexivity|].
  rewrite (@history_survives_restart asciiBuiltins emptyStorage wholeQuiz _
             eq_refl eq_refl);
    vm_compute; reflexivity.
Defined.

Lemma score_within_questions_asked_witness :
  exists w,
    run_waiting (mount emptyStorage) wholeQuiz = Some w
    /\ score (state w) <= List.length (questionsAsked (state w))
    /\ List.length (questionsAsked (state w)) <= quizLength.
Proof.
  eexists. split; [vm_compute; reflexivity|].
  refine ((fun H => conj (proj1 H) (proj1 (proj2 H)))
            (@score_within_questions_asked asciiBuiltins emptyStorage wholeQuiz _ _)).
  vm_compute. reflexivity.
Defined.

Lemma spinner_and_call_in_flight_witness :
  exists w,
    run_waiting (mount emptyStorage)
      [Do (TopicInput "Photosynthesis"); Do TopicSubmit] = Some w
    /\ List.length (inflight w) <= 1
    /\ offered (state w) BackToNewTopic = false.
Proof.
  eexists. split; [vm_compute; reflexivity|].
  destruct (@spinner_and_call_in_flight asciiBuiltins emptyStorage
              [Do (TopicInput "Photosynthesis"); Do TopicSubmit] _
              ltac:(vm_compute; reflexivity)) as [L [_ [_ O]]].
  split; [exact L|].
  apply (O "Generating your personalized study guide..."). reflexivity.
Defined.

Lemma quiz_starts_afresh_from_study_guide_witness :
  exists w,
    run_waiting (mount emptyStorage)
      [Do (TopicInput "Photosynthesis"); Do TopicSubmit;
       Settle 0 (replies "guide")] = Some w
    /\ questionsAsked (state w) = [] /\ score (state w) = 0.
Proof.
  eexists. split; [vm_compute; reflexivity|].
  destruct (@quiz_starts_afresh_from_study_guide asciiBuiltins emptyStorage
              [Do (TopicInput "Photosynthesis"); Do TopicSubmit;
               Settle 0 (replies "guide")] _
              ltac:(vm_compute; reflexivity)) as [F _].
  destruct (F eq_refl) as [Q [S _]]. split; assumption.
Defined.

Lemma key_points_and_summary_exclusive_witness :
  exists w,
    run_waiting (mount emptyStorage)
      [Do (TopicInput "Photosynthesis"); Do TopicSubmit;
       Settle 0 (replies "guide"); Do GetSummary; Settle 0 (replies "In short");
       Do GetKeyPoints; Settle 0 (replies "- a point")] = Some w
    /\ (keyPoints (state w) = "" \/ summary (state w) = "").
Proof.
  eexists. split; [vm_compute; reflexivity|].
  apply (@key_points_and_summary_exclusive asciiBuiltins emptyStorage
           [Do (TopicInput "Photosynthesis"); Do TopicSubmit;
            Settle 0 (replies "guide"); Do GetSummary;
            Settle 0 (replies "In short");
            Do GetKeyPoints; Settle 0 (replies "- a point")]).
  vm_compute. reflexivity.
Defined.

Lemma request_carries_current_data_witness :
  exists w c,
    run_waiting (mount emptyStorage)
      (wholeQuiz ++ [Do StartQuiz; Do StartQuiz]) = Some w
    /\ inflight w = [c]
    /\ request c = GenerateQuizQuestion "guide" [].
Proof.
  do 2 eexists. split; [vm_compute; reflexivity|]. split; [reflexivity|].
  exact (@request_carries_current_data asciiBuiltins emptyStorage
           (wholeQuiz ++ [Do StartQuiz; Do StartQuiz])
           _ (mkCall (GenerateQuizQuestion "guide" []) QuestionRequested)
           ltac:(vm_compute; reflexivity) (or_introl eq_refl)).
Defined.

Lemma history_only_grows_witness :
  exists w w',
    run_waiting (mount emptyStorage) wholeQuiz = Some w
    /\ run_waiting w
         [Do BackToNewTopic; Do (TopicInput "Mitosis"); Do TopicSubmit;
          Settle 0 (replies "another guide")] = Some w'
    /\ exists new, history (state w') = new ++ history (state w).
Proof.
  do 2 eexists. split; [vm_compute; reflexivity|].
  split; [vm_compute; reflexivity|].
  apply (@history_only_grows asciiBuiltins emptyStorage wholeQuiz
           [Do BackToNewTopic; Do (TopicInput "Mitosis"); Do TopicSubmit;
            Settle 0 (replies "another guide")]);
    vm_compute; reflexivity.
Defined.

(** One answer, from the question to the request for the next one or to
    the end of the quiz. *)
Lemma round_of_quiz (er : option string) (tp sg : string) (so : list Source)
    (kp su : string) (qa : list string) (cq ua : string)
    (fb : option EvaluationFeedback) (sc : nat) (hi : list HistoryItem.t)
    (disk : Storage) (ev : string) :
  qa <> [] ->
  let scored := if String.eqb ev "Correct" then sc + 1 else sc in
  run_waiting
    (mkWorld (mkState ASKING_QUESTION er tp sg so kp su qa cq ua fb sc hi)
       [] disk)
    (answers ev)
  = Some
      (if Nat.leb quizLength (List.length qa)
       then mkWorld (mkState QUIZ_COMPLETE None tp sg so kp su qa cq "" None
                       scored hi) [] disk
       else mkWorld (mkState ASKING_QUESTION None tp sg so kp su qa cq "" None
                       scored hi)
              [mkCall (GenerateQuizQuestion sg qa) QuestionRequested] disk).
Proof.
  intros N. cbv zeta. unfold answers.
  assert (L : Nat.ltb 0 (List.length qa) = true).
  { destruct qa; [contradiction | reflexivity]. }
  set (fbk := mkFeedback ev "because").
  set (s1 := mkState ASKING_QUESTION er tp sg so kp su qa cq "an answer" fb sc hi).
  set (s2 := mkState EVALUATING_ANSWER None tp sg so kp su qa cq "an answer" fb
               sc hi).
  set (s3 := mkState SHOWING_FEEDBACK None tp sg so kp su qa cq "an answer"
               (Some fbk) (if String.eqb ev "Correct" then sc + 1 else sc) hi).
  set (call := mkCall (EvaluateAnswer sg cq "an answer") AnswerSubmitted).
  rewrite (@run_waiting_cons asciiBuiltins _ _ _ (mkWorld s1 [] disk)); [|reflexivity|].
  2:{ rewrite step_Do_eq; [reflexivity|]. unfold offered. exact L. }
  rewrite (@run_waiting_cons asciiBuiltins _ _ _ (mkWorld s2 [call] disk)); [|reflexivity|].
  2:{ rewrite step_Do_eq; [reflexivity|]. unfold offered. exact L. }
  rewrite (@run_waiting_cons asciiBuiltins _ _ _ (mkWorld s3 [] disk)); [|reflexivity|].
  2:{ rewrite step_Settle_eq with (c := call); [|reflexivity|].
      - f_equal. f_equal. unfold s3, fbk. cbn -[String.eqb].
        destruct (String.eqb ev "Correct"); reflexivity.
      - cbn -[String.eqb]. destruct (String.eqb ev "Correct"); reflexivity. }
  cbn [run_waiting waits inflight].
  rewrite step_Do_eq by reflexivity.
  cbn [handle state inflight storage app]. unfold fetchNextQuestion, quizLength.
  cbn [questionsAsked s3].
  destruct (Nat.leb 5 (List.length qa)); reflexivity.
Qed.

Lemma question_arrives (er : option string) (tp sg : string) (so : list Source)
    (kp su : string) (qa : list string) (cq ua : string)
    (fb : option EvaluationFeedback) (sc : nat) (hi : list HistoryItem.t)
    (disk : Storage) (c : Call) (q : string) (rest : list Event) :
  awaiting c = QuestionRequested ->
  run_waiting
    (mkWorld (mkState ASKING_QUESTION er tp sg so kp su qa cq ua fb sc hi)
       [c] disk)
    (Settle 0 (replies q) :: rest)
  = run_waiting
      (mkWorld (mkState ASKING_QUESTION er tp sg so kp su (qa ++ [q]) q ua
                  fb sc hi) [] disk)
      rest.
Proof.
  intros A. apply run_waiting_cons; [reflexivity|].
  rewrite step_Settle_eq with (c := c); [|reflexivity|];
    cbn [state]; rewrite A; reflexivity.
Qed.

(** X14: a quiz of five answers, the user waiting for every call, ends on the
    Quiz Complete screen, and the final score it shows is the number of
    answers whose evaluation was exactly "Correct". *)
Theorem final_score_counts_correct_answers (evaluations : list string) :
  List.length evaluations = quizLength ->
  exists w,
    run_waiting (mount emptyStorage) (quizWith evaluations) = Some w
    /\ inflight w = []
    /\ renderContent (state w)
       = QuizCompleteView
           (List.length
              (filter (fun e => String.eqb e "Correct") evaluations)).
Proof.
  destruct evaluations as [|e1 [|e2 [|e3 [|e4 [|e5 [|e6 r]]]]]];
    try discriminate.
  intros _. unfold quizWith. cbn [rounds].
  rewrite run_waiting_app.
  assert (Start :
    run_waiting (mount emptyStorage)
      [Do (TopicInput "Photosynthesis"); Do TopicSubmit;
       Settle 0 (replies "guide"); Do StartQuiz; Settle 0 (replies "a question")]
    = Some (mkWorld
              (mkState ASKING_QUESTION None "Photosynthesis" "guide" [] "" ""
                 ["a question"] "a question" "" None 0
                 [HistoryItem.make "Photosynthesis" "guide" []])
              []
              (mkStorage
                 (Serialized [HistoryItem.make "Photosynthesis" "guide" []])
                 false false)))
    by (vm_compute; reflexivity).
  rewrite Start. clear Start.
  do 4 (rewrite run_waiting_app, round_of_quiz by discriminate;
        cbn [List.length app Nat.leb quizLength];
        rewrite question_arrives by reflexivity;
        cbn [List.length app]).
  rewrite round_of_quiz by discriminate.
  cbn [List.length app Nat.leb quizLength].
  eexists. split; [reflexivity|]. split; [reflexivity|].
  cbn [state renderContent appState score filter].
  destruct (String.eqb e1 "Correct"), (String.eqb e2 "Correct"),
    (String.eqb e3 "Correct"), (String.eqb e4 "Correct"),
    (String.eqb e5 "Correct"); reflexivity.
Qed.

Lemma final_score_counts_correct_answers_witness :
  exists w,
    run_waiting (mount emptyStorage)
      (quizWith ["Correct"; "Incorrect"; "Correct"; "Partially Correct"; "Correct"])
    = Some w
    /\ inflight w = []
    /\ renderContent (state w) = QuizCompleteView 3.
Proof.
  exact (@final_score_counts_correct_answers
           ["Correct"; "Incorrect"; "Correct"; "Partially Correct"; "Correct"]
           eq_refl).
Defined.

Lemma every_history_entry_can_be_opened_witness :
  let entry n := HistoryItem.make n "guide" [] in
  let w := mkWorld
             (setHistory [entry "a"; entry "b"; entry "c"; entry "d";
                          entry "e"; entry "f"] initialState)
             [] emptyStorage in
  exists w',
    run w [Do ViewAllHistory; Do (SelectHistoryItem 5)] = Some w'
    /\ topic (state w') = "f".
Proof.
  intros entry w.
  destruct (@every_history_entry_can_be_opened asciiBuiltins w 5 (entry "f") eq_refl eq_refl)
    as [es [w' [[E|E] [R [S _]]]]]; subst es.
  - exfalso. vm_compute in R. discriminate.
  - exists w'. split; [exact R|]. now rewrite S.
Defined.


